(** * Boid flocking engine (genuary-2026, first sketch)

    A shallow embedding of the flocking / steering engine of the first
    sketch: the [Boid] class (separation, alignment, cohesion, seek,
    mouseRepel, flock, wrapEdges, update) and the per-frame driver
    [animate] with its scatter-mode controller.

    JavaScript numbers are modelled by the real numbers: every vector
    component, distance and force is an [R], [Math.sqrt] is [sqrt],
    [Math.max]/[Math.min] are [Rmax]/[Rmin].  Counters that the code only
    increments or decrements by one are integers ([nat], [Z]). *)

From Stdlib Require Import Reals Lra Lia List Bool ZArith Arith Permutation.
Import ListNotations.

Local Open Scope R_scope.

(** ** Real comparisons as booleans (the conditions of JS [if]) *)

Definition Rltb (a b : R) : bool := if Rlt_dec a b then true else false.
Definition Rgtb (a b : R) : bool := Rltb b a.

(** [v || 1] on a number: [1] when [v] is zero. *)
Definition orOne (v : R) : R := if Req_dec_T v 0 then 1 else v.

(** ** THREE.Vector3

    The operations of three.js's [Vector3] that the sketch calls, with the
    library's definitions: [divideScalar s] is [multiplyScalar (1 / s)],
    [normalize] is [divideScalar (length || 1)], [clampLength min max] is
    [divideScalar (length || 1)] followed by
    [multiplyScalar (max min (min max length))], and [lerp v alpha] adds
    [(v - this) * alpha] componentwise.  In-place mutation of a vector
    object is a new value for the variable or field that holds it. *)

Module Vector3.

Record t : Type := mk { x : R; y : R; z : R }.

Definition zero : t := mk 0 0 0.

Definition add (a v : t) : t := mk (x a + x v) (y a + y v) (z a + z v).
Definition sub (a v : t) : t := mk (x a - x v) (y a - y v) (z a - z v).
Definition subVectors (a b : t) : t := mk (x a - x b) (y a - y b) (z a - z b).
Definition multiplyScalar (a : t) (s : R) : t := mk (x a * s) (y a * s) (z a * s).
Definition divideScalar (a : t) (s : R) : t := multiplyScalar a (1 / s).
Definition lengthSq (a : t) : R := x a * x a + y a * y a + z a * z a.
Definition length (a : t) : R := sqrt (lengthSq a).
Definition distanceToSquared (a v : t) : R :=
  let dx := x a - x v in
  let dy := y a - y v in
  let dz := z a - z v in
  dx * dx + dy * dy + dz * dz.
Definition distanceTo (a v : t) : R := sqrt (distanceToSquared a v).
Definition normalize (a : t) : t := divideScalar a (orOne (length a)).
Definition clampLength (a : t) (min max : R) : t :=
  let len := length a in
  multiplyScalar (divideScalar a (orOne len)) (Rmax min (Rmin max len)).
Definition lerp (a v : t) (alpha : R) : t :=
  mk (x a + (x v - x a) * alpha)
     (y a + (y v - y a) * alpha)
     (z a + (z v - z a) * alpha).

End Vector3.

Abbreviation Vector3 := Vector3.t.

(** ** Configuration *)

Module CONFIG.
Definition numBoids : nat := 500.
Definition maxSpeed : R := 2.
Definition maxForce : R := 0.05.
Definition separationRadius : R := 25.
Definition alignmentRadius : R := 50.
Definition cohesionRadius : R := 50.
Definition separationWeight : R := 1.5.
Definition alignmentWeight : R := 1.0.
Definition cohesionWeight : R := 1.0.
Definition mouseRepelRadius : R := 50.
Definition mouseRepelStrength : R := 3.0.
Definition boundarySize : R := 300.
Definition homeAttractionStrength : R := 1.2.
End CONFIG.

Definition SCATTER_DURATION : Z := 180.

(** ** Mutable state

    Methods that mutate objects are state transformers.  [State S A] is a
    computation that reads and writes a store [S] and returns an [A]. *)

Definition State (S A : Type) : Type := S -> A * S.

Definition ret {S A : Type} (a : A) : State S A := fun s => (a, s).

Definition bind {S A B : Type} (m : State S A) (k : A -> State S B) : State S B :=
  fun s => let (a, s') := m s in k a s'.

Definition get {S : Type} : State S S := fun s => (s, s).

Definition modify {S : Type} (f : S -> S) : State S unit := fun s => (tt, f s).

Definition exec {S A : Type} (m : State S A) (s : S) : S := snd (m s).
Definition eval {S A : Type} (m : State S A) (s : S) : A := fst (m s).

Declare Scope state_scope.
Delimit Scope state_scope with state.
Notation "x <- c1 ;; c2" := (bind c1 (fun x => c2))
  (at level 61, c1 at next level, right associativity) : state_scope.
Notation "c1 ;; c2" := (bind c1 (fun _ => c2))
  (at level 61, right associativity) : state_scope.
Local Open Scope state_scope.

(** [for (const i of idx) acc = body(i, acc)] with the loop variables
    threaded through as [acc]. *)
Fixpoint forOf {S A : Type} (idx : list nat) (body : nat -> A -> State S A)
    (acc : A) : State S A :=
  match idx with
  | [] => ret acc
  | i :: rest => a <- body i acc ;; forOf rest body a
  end.

(** In-place update of the array element at index [i]. *)
Fixpoint updAt {A : Type} (i : nat) (f : A -> A) (l : list A) : list A :=
  match l, i with
  | [], _ => []
  | a :: r, O => f a :: r
  | a :: r, S j => a :: updAt j f r
  end.

(** ** The Boid class

    A boid object holds its own [position], [velocity], [acceleration] and
    [homePosition] vectors (each created by [clone()] or [new] in the
    constructor, so no two fields and no two boids share a vector) and the
    [isNearMouse] flag.  The mesh and the colour objects are written by
    [update] for rendering only and are never read by the physics; they
    are left out.

    Methods that touch only [this] run on a store that is the boid itself;
    methods that receive the [boids] array run on the array, with [this]
    given by its index ([other === this] is equality of indices).  In
    [flock] the three scans read the array; everything after them reads
    and writes [this] alone. *)

Module Boid.
Import Vector3.

Record t : Type := mk {
  position : Vector3;
  velocity : Vector3;
  acceleration : Vector3;
  homePosition : Vector3;
  isNearMouse : bool
}.

Definition setPosition (v : Vector3) (b : t) : t :=
  mk v (velocity b) (acceleration b) (homePosition b) (isNearMouse b).
Definition setVelocity (v : Vector3) (b : t) : t :=
  mk (position b) v (acceleration b) (homePosition b) (isNearMouse b).
Definition setAcceleration (v : Vector3) (b : t) : t :=
  mk (position b) (velocity b) v (homePosition b) (isNearMouse b).
Definition setIsNearMouse (f : bool) (b : t) : t :=
  mk (position b) (velocity b) (acceleration b) (homePosition b) f.

Definition Swarm : Type := list t.

Definition dummy : t := mk zero zero zero zero false.

(** Reading the object at an index of the array. *)
Definition getAt (i : nat) : State Swarm t := fun s => (nth i s dummy, s).

(** Running a method of the object at index [this] of the array. *)
Definition onThis {A : Type} (this : nat) (m : State t A) : State Swarm A :=
  fun s => let (a, b') := m (nth this s dummy) in (a, updAt this (fun _ => b') s).

(** The constructor; [rx ry rz] are the three [Math.random()] draws. *)
Definition constructor (homePos : Vector3) (rx ry rz : R) : t :=
  let velocity := Vector3.mk ((rx - 0.5) * 2) ((ry - 0.5) * 2) ((rz - 0.5) * 2) in
  let velocity := multiplyScalar (normalize velocity) (CONFIG.maxSpeed * 0.5) in
  mk homePos velocity zero homePos false.

Definition applyForce (force : Vector3) : State t unit :=
  modify (fun b => setAcceleration (add (acceleration b) force) b).

Definition separation (this : nat) : State Swarm Vector3 :=
  boids <- get ;;
  acc <- forOf (seq 0 (List.length boids))
    (fun other acc =>
       if Nat.eqb other this then ret acc
       else
         me <- getAt this ;;
         o <- getAt other ;;
         let d := distanceTo (position me) (position o) in
         if Rgtb d 0 && Rltb d CONFIG.separationRadius then
           let diff := subVectors (position me) (position o) in
           let diff := normalize diff in
           let diff := divideScalar diff d in
           ret (add (fst acc) diff, S (snd acc))
         else ret acc)
    (zero, O) ;;
  let steer := fst acc in
  let count := snd acc in
  if Nat.ltb 0 count then
    me <- getAt this ;;
    let steer := divideScalar steer (INR count) in
    let steer := normalize steer in
    let steer := multiplyScalar steer CONFIG.maxSpeed in
    let steer := sub steer (velocity me) in
    let steer := clampLength steer 0 CONFIG.maxForce in
    ret steer
  else ret steer.

Definition alignment (this : nat) : State Swarm Vector3 :=
  boids <- get ;;
  acc <- forOf (seq 0 (List.length boids))
    (fun other acc =>
       if Nat.eqb other this then ret acc
       else
         me <- getAt this ;;
         o <- getAt other ;;
         let d := distanceTo (position me) (position o) in
         if Rgtb d 0 && Rltb d CONFIG.alignmentRadius then
           ret (add (fst acc) (velocity o), S (snd acc))
         else ret acc)
    (zero, O) ;;
  let avgVelocity := fst acc in
  let count := snd acc in
  if Nat.ltb 0 count then
    me <- getAt this ;;
    let avgVelocity := divideScalar avgVelocity (INR count) in
    let avgVelocity := normalize avgVelocity in
    let avgVelocity := multiplyScalar avgVelocity CONFIG.maxSpeed in
    let steer := subVectors avgVelocity (velocity me) in
    let steer := clampLength steer 0 CONFIG.maxForce in
    ret steer
  else ret zero.

Definition seek (target : Vector3) : State t Vector3 :=
  me <- get ;;
  let desired := subVectors target (position me) in
  let desired := normalize desired in
  let desired := multiplyScalar desired CONFIG.maxSpeed in
  let steer := subVectors desired (velocity me) in
  let steer := clampLength steer 0 CONFIG.maxForce in
  ret steer.

Definition cohesion (this : nat) : State Swarm Vector3 :=
  boids <- get ;;
  acc <- forOf (seq 0 (List.length boids))
    (fun other acc =>
       if Nat.eqb other this then ret acc
       else
         me <- getAt this ;;
         o <- getAt other ;;
         let d := distanceTo (position me) (position o) in
         if Rgtb d 0 && Rltb d CONFIG.cohesionRadius then
           ret (add (fst acc) (position o), S (snd acc))
         else ret acc)
    (zero, O) ;;
  let centerOfMass := fst acc in
  let count := snd acc in
  if Nat.ltb 0 count then
    let centerOfMass := divideScalar centerOfMass (INR count) in
    onThis this (seek centerOfMass)
  else ret zero.

Definition seekHome : State t Vector3 :=
  me <- get ;;
  steer <- seek (homePosition me) ;;
  ret (multiplyScalar steer CONFIG.homeAttractionStrength).

Definition mouseRepel (mousePosition : Vector3) : State t Vector3 :=
  me <- get ;;
  let d := distanceTo (position me) mousePosition in
  if Rltb d CONFIG.mouseRepelRadius && Rgtb d 0 then
    modify (setIsNearMouse true) ;;
    me <- get ;;
    let flee := subVectors (position me) mousePosition in
    let flee := normalize flee in
    let strength := CONFIG.mouseRepelStrength * (1 - d / CONFIG.mouseRepelRadius) in
    let flee := multiplyScalar flee strength in
    let flee := clampLength flee 0 (CONFIG.maxForce * 4) in
    ret flee
  else ret zero.

(** The part of [flock] that follows the three scans: it reads and writes
    [this] alone. *)
Definition flockOnThis (sep ali coh mousePosition : Vector3)
    (isMouseActive scattered : bool) : State t unit :=
  (if scattered then
     applyForce sep ;;
     applyForce ali ;;
     applyForce coh
   else
     modify (setVelocity (Vector3.mk 0 0 0)) ;;
     modify (fun b => setPosition (lerp (position b) (homePosition b) 0.1) b)) ;;
  if isMouseActive then
    mouseForce <- mouseRepel mousePosition ;;
    applyForce mouseForce
  else ret tt.

Definition flock (this : nat) (mousePosition : Vector3)
    (isMouseActive scattered : bool) : State Swarm unit :=
  sep <- separation this ;;
  let sep := multiplyScalar sep CONFIG.separationWeight in
  ali <- alignment this ;;
  let ali := multiplyScalar ali CONFIG.alignmentWeight in
  coh <- cohesion this ;;
  let coh := multiplyScalar coh CONFIG.cohesionWeight in
  onThis this (flockOnThis sep ali coh mousePosition isMouseActive scattered).

(** One axis of [wrapEdges]: the two [if]s in sequence. *)
Definition wrapAxis (bound c : R) : R :=
  let c := if Rgtb c bound then - bound else c in
  let c := if Rltb c (- bound) then bound else c in
  c.

Definition wrapEdges : State t unit :=
  let bound := CONFIG.boundarySize in
  modify (fun b =>
    let p := position b in
    setPosition (Vector3.mk (wrapAxis bound (x p)) (wrapAxis bound (y p))
                            (wrapAxis bound (z p))) b).

Definition update (scattered : bool) : State t unit :=
  modify (fun b => setVelocity (add (velocity b) (acceleration b)) b) ;;
  modify (fun b => setVelocity (clampLength (velocity b) 0 CONFIG.maxSpeed) b) ;;
  (if negb scattered then
     me <- get ;;
     let distToHome := distanceTo (position me) (homePosition me) in
     if Rltb distToHome 20 then
       modify (fun b => setVelocity (multiplyScalar (velocity b) 0.85) b)
     else if Rltb distToHome 50 then
       modify (fun b => setVelocity (multiplyScalar (velocity b) 0.95) b)
     else ret tt
   else ret tt) ;;
  modify (fun b => setPosition (add (position b) (velocity b)) b) ;;
  wrapEdges ;;
  modify (setAcceleration (Vector3.mk 0 0 0)) ;;
  modify (setIsNearMouse false).

End Boid.

Abbreviation Boid := Boid.t.
Abbreviation Swarm := Boid.Swarm.

(** ** The world and the animation loop

    The globals of the sketch that the engine reads and writes: the
    [boids] array, the pointer ([mousePos], [mouseActive]) and the scatter
    mode ([isScattered], [scatterTimer]). *)

Record World : Type := mkWorld {
  boids : Swarm;
  mousePos : Vector3;
  mouseActive : bool;
  isScattered : bool;
  scatterTimer : Z
}.

(** The collision scan at the top of [animate]: does some boid lie closer
    than 30 to the pointer?  (The loop stops at the first one.) *)
Definition collides (bs : Swarm) (mp : Vector3) : bool :=
  existsb (fun boid => Rltb (Vector3.distanceTo (Boid.position boid) mp) 30) bs.

(** What the scan, guarded by [mouseActive], decides in a frame. *)
Definition triggered (w : World) : bool :=
  mouseActive w && collides (boids w) (mousePos w).

(** The two statements of [animate] that drive the mode, as a function of
    whether the scan fired, on the pair [(isScattered, scatterTimer)]. *)
Definition checkCollision (trigger : bool) (m : bool * Z) : bool * Z :=
  if trigger then (true, SCATTER_DURATION) else m.

Definition manageTimer (m : bool * Z) : bool * Z :=
  if (0 <? snd m)%Z then (fst m, (snd m - 1)%Z) else (false, snd m).

Definition modeStep (trigger : bool) (m : bool * Z) : bool * Z :=
  manageTimer (checkCollision trigger m).

(** The two passes over the array. *)
Definition flockPass (mp : Vector3) (active scattered : bool) : State Swarm unit :=
  bs <- get ;;
  forOf (seq 0 (List.length bs))
        (fun i _ => Boid.flock i mp active scattered) tt.

Definition updatePass (scattered : bool) : State Swarm unit :=
  bs <- get ;;
  forOf (seq 0 (List.length bs))
        (fun i _ => Boid.onThis i (Boid.update scattered)) tt.

Definition animate (w : World) : World :=
  let m := modeStep (triggered w) (isScattered w, scatterTimer w) in
  let bs := exec (flockPass (mousePos w) (mouseActive w) (fst m) ;;
                  updatePass (fst m)) (boids w) in
  mkWorld bs (mousePos w) (mouseActive w) (fst m) (snd m).

(** [init]: one boid per text position; each entry of [homes] carries the
    home position and the three random draws of the constructor.  The
    pointer starts off-screen and inactive, the mode starts formed. *)
Definition init (homes : list (Vector3 * (R * R * R))) : World :=
  mkWorld
    (map (fun h => let '(home, (rx, ry, rz)) := h in Boid.constructor home rx ry rz) homes)
    (Vector3.mk 9999 9999 9999) false false 0%Z.

(** The pointer handlers ([mousemove], [mouseenter], [mouseleave]) run
    between frames and write only the pointer. *)
Definition setPointer (mp : Vector3) (active : bool) (w : World) : World :=
  mkWorld (boids w) mp active (isScattered w) (scatterTimer w).

(** ** The text position generator

    [generateTextPositions] reads the pixels the browser rasterised and
    draws from [Math.random()].  The red channel of the image data is the
    parameter [data] (indexed like [imageData.data]); the random source is
    the stream of its future draws, each draw a number in [[0, 1)] (the
    predicate [fair]); [Math.floor] of a non-negative product used as an
    array index is [floorIndex]. *)

Definition Rng : Type := nat -> R.

Definition random : State Rng R := fun g => (g O, fun n => g (S n)).

Definition fair (g : Rng) : Prop := forall n, 0 <= g n < 1.

Definition floorIndex (v : R) : nat := Z.to_nat (Int_part v).

(** How a call ends: it returns, it throws (reading [.clone] of
    [undefined]), or the model ran out of loop fuel. *)
Inductive completion (A : Type) : Type :=
| Normal (a : A)
| Throw
| OutOfFuel.
Arguments Normal {A} a.
Arguments Throw {A}.
Arguments OutOfFuel {A}.

(** The even numbers below [2 * n]: [for (let v = 0; v < 2 * n; v += 2)]. *)
Definition evens (n : nat) : list nat := map (fun k => (2 * k)%nat) (seq 0 n).

(** The sampling loops over the 400 x 100 canvas. *)
Definition samplePixels (data : nat -> Z) : State Rng (list Vector3) :=
  forOf (evens 50)
    (fun y positions =>
       forOf (evens 200)
         (fun x positions =>
            let i := ((y * 400 + x) * 4)%nat in
            if (128 <? data i)%Z then
              r <- random ;;
              ret (positions ++
                   [Vector3.mk ((INR x - 200) * 1.5) ((50 - INR y) * 1.5)
                               ((r - 0.5) * 30)])
            else ret positions)
         positions)
    [].

(** [[positions[i], positions[j]] = [positions[j], positions[i]]]. *)
Definition swap (i j : nat) (positions : list Vector3) : list Vector3 :=
  let pi := nth i positions Vector3.zero in
  let pj := nth j positions Vector3.zero in
  updAt j (fun _ => pi) (updAt i (fun _ => pj) positions).

(** The shuffle loop, [i] from [length - 1] down to [1]. *)
Definition shuffle (positions : list Vector3) : State Rng (list Vector3) :=
  forOf (rev (seq 1 (List.length positions - 1)))
    (fun i positions =>
       r <- random ;;
       let j := floorIndex (r * INR (i + 1)) in
       ret (swap i j positions))
    positions.

(** The padding loop [while (positions.length < numPoints)]. *)
Fixpoint padLoop (fuel numPoints : nat) (positions : list Vector3)
    : State Rng (completion (list Vector3)) :=
  if Nat.ltb (List.length positions) numPoints then
    match fuel with
    | O => ret OutOfFuel
    | S fuel' =>
        r <- random ;;
        let idx := floorIndex (r * INR (List.length positions)) in
        match nth_error positions idx with
        | None => ret Throw
        | Some p =>
            rx <- random ;;
            ry <- random ;;
            rz <- random ;;
            let pos := Vector3.mk (Vector3.x p + (rx - 0.5) * 5)
                                  (Vector3.y p + (ry - 0.5) * 5)
                                  (Vector3.z p + (rz - 0.5) * 10) in
            padLoop fuel' numPoints (positions ++ [pos])
        end
    end
  else ret (Normal positions).

Definition generateTextPositions (data : nat -> Z) (numPoints fuel : nat)
    : State Rng (completion (list Vector3)) :=
  positions <- samplePixels data ;;
  positions <- shuffle positions ;;
  padded <- padLoop fuel numPoints positions ;;
  match padded with
  | Normal positions => ret (Normal (firstn numPoints positions))
  | Throw => ret Throw
  | OutOfFuel => ret OutOfFuel
  end.

(** The number of sampled pixels that are lit. *)
Definition litCount (data : nat -> Z) : nat :=
  list_sum (map (fun y =>
    list_sum (map (fun x =>
      if (128 <? data ((y * 400 + x) * 4)%nat)%Z then 1%nat else 0%nat)
      (evens 200))) (evens 50)).

(** Where a sampled pixel can land. *)
Definition inSampleRange (p : Vector3) : Prop :=
  -300 <= Vector3.x p <= 297 /\
  -72 <= Vector3.y p <= 75 /\
  -15 <= Vector3.z p <= 15.

(** ** The glow of the material

    The part of [update] that drives [mesh.material.emissiveIntensity],
    with three.js's [MathUtils.mapLinear] and [MathUtils.lerp].  It reads
    the velocity [update] has just computed and the [isNearMouse] flag
    before [update] resets it, which is the flag [update] was entered
    with. *)

Definition mapLinear (v a1 a2 b1 b2 : R) : R :=
  b1 + (v - a1) * (b2 - b1) / (a2 - a1).

Definition lerpNumber (a b t : R) : R := (1 - t) * a + t * b.

Definition glow (speed : R) (nearMouse : bool) (emissiveIntensity : R) : R :=
  let baseIntensity := mapLinear speed 0 CONFIG.maxSpeed 0.1 0.4 in
  if nearMouse then lerpNumber emissiveIntensity 0.8 0.15
  else lerpNumber emissiveIntensity baseIntensity 0.08.

Definition updateGlow (scattered : bool) (b : Boid) (emissiveIntensity : R) : R :=
  glow (Vector3.length (Boid.velocity (exec (Boid.update scattered) b)))
       (Boid.isNearMouse b) emissiveIntensity.

(** The opposite vector. *)
Definition negate (v : Vector3) : Vector3 := Vector3.multiplyScalar v (-1).

(** ** Vocabulary of the properties *)

(** The three weighted steering vectors [flock] computes for [this]. *)
Definition sepOf (this : nat) (s : Swarm) : Vector3 :=
  Vector3.multiplyScalar (eval (Boid.separation this) s) CONFIG.separationWeight.
Definition aliOf (this : nat) (s : Swarm) : Vector3 :=
  Vector3.multiplyScalar (eval (Boid.alignment this) s) CONFIG.alignmentWeight.
Definition cohOf (this : nat) (s : Swarm) : Vector3 :=
  Vector3.multiplyScalar (eval (Boid.cohesion this) s) CONFIG.cohesionWeight.

(** The kinematic state of a boid: what the scans of other boids read. *)
Definition kin (b : Boid) : Vector3 * Vector3 := (Boid.position b, Boid.velocity b).

(** The states the sketch can be in at a frame boundary: [init], then any
    number of pointer events and frames. *)
Inductive Reachable : World -> Prop :=
| Reachable_init (homes : list (Vector3 * (R * R * R))) :
    Reachable (init homes)
| Reachable_pointer (w : World) (mp : Vector3) (active : bool) :
    Reachable w -> Reachable (setPointer mp active w)
| Reachable_frame (w : World) :
    Reachable w -> Reachable (animate w).

(** A frame as the browser runs it: the pointer handlers have left the
    pointer at [input], then [animate] runs.  [run] is a sequence of such
    frames; [untriggered] says the collision scan fires in none of them. *)
Definition frame (input : Vector3 * bool) (w : World) : World :=
  animate (setPointer (fst input) (snd input) w).

Fixpoint run (inputs : list (Vector3 * bool)) (w : World) : World :=
  match inputs with
  | [] => w
  | input :: rest => run rest (frame input w)
  end.

Fixpoint untriggered (inputs : list (Vector3 * bool)) (w : World) : Prop :=
  match inputs with
  | [] => True
  | input :: rest =>
      triggered (setPointer (fst input) (snd input) w) = false /\
      untriggered rest (frame input w)
  end.

(** No other boid of the array lies at a strictly positive distance below
    [radius] from the boid at index [this]. *)
Definition isolated (radius : R) (this : nat) (s : Swarm) : Prop :=
  forall other, (other < List.length s)%nat -> other <> this ->
    let d := Vector3.distanceTo (Boid.position (nth this s Boid.dummy))
                                (Boid.position (nth other s Boid.dummy)) in
    ~ (0 < d < radius).

(** A coordinate [c] wrapped to [c']: beyond [+bound] it lands on
    [-bound], beyond [-bound] on [+bound], and inside it stays. *)
Definition teleports (bound c c' : R) : Prop :=
  (c > bound -> c' = - bound) /\
  (c < - bound -> c' = bound) /\
  (- bound <= c <= bound -> c' = c).

(** Every coordinate of [p] lies in [[-bound, bound]]. *)
Definition inBox (bound : R) (p : Vector3) : Prop :=
  - bound <= Vector3.x p <= bound /\
  - bound <= Vector3.y p <= bound /\
  - bound <= Vector3.z p <= bound.

(** The condition under which a formed frame does not wrap: position and
    home inside the box, no acceleration pending. *)
Definition settled (b : Boid) : Prop :=
  inBox CONFIG.boundarySize (Boid.position b) /\
  inBox CONFIG.boundarySize (Boid.homePosition b) /\
  Boid.acceleration b = Vector3.zero.

(** One frame of one boid that no other boid influences: its [flock]
    step with the steering vectors [sep], [ali], [coh], then [update]. *)
Definition frameOf (sep ali coh mp : Vector3) (active scattered : bool)
    (b : Boid) : Boid :=
  exec (Boid.update scattered)
       (exec (Boid.flockOnThis sep ali coh mp active scattered) b).

(** ** Example data *)

(** A boid at rest at [p], which is also its home. *)
Definition still (p : Vector3) : Boid :=
  Boid.mk p Vector3.zero Vector3.zero p false.

(** Two boids at rest, one unit apart. *)
Definition pairSwarm : Swarm :=
  [still (Vector3.mk 0 0 0); still (Vector3.mk 1 0 0)].

(** One moving boid, ten units from its home at the origin. *)
Definition strayBoid : Boid :=
  Boid.mk (Vector3.mk 10 0 0) (Vector3.mk 1 0 0) Vector3.zero Vector3.zero false.


(** A boid on the [+boundarySize] edge of the x axis, moving outward. *)
Definition edgeBoid : Boid :=
  Boid.mk (Vector3.mk 300 0 0) (Vector3.mk 1 0 0) Vector3.zero Vector3.zero false.

(** The world one frame after [init] with a single boid at the origin. *)
Definition firstFrame : World :=
  animate (init [(Vector3.zero, (1, 0.5, 0.5))]).

(** A boid in flight along the x axis, its home at the origin. *)
Definition flyingBoid : Boid :=
  Boid.mk Vector3.zero (Vector3.mk 1 0 0) Vector3.zero Vector3.zero false.

(** Image data whose top row of sampled pixels is lit, image data with no
    lit pixel, and a random source that always draws 0. *)
Definition topRowLit : nat -> Z := fun i => if (i <? 1600)%nat then 255%Z else 0%Z.
Definition dark : nat -> Z := fun _ => 0%Z.
Definition zeros : Rng := fun _ => 0.

(** A formed world whose active pointer sits on its only boid. *)
Definition touchedWorld : World :=
  mkWorld [still Vector3.zero] Vector3.zero true false 0%Z.


(** * Properties *)

(** ** Real comparisons *)

Lemma Rltb_true (a b : R) : Rltb a b = true <-> a < b.
Proof. unfold Rltb. destruct (Rlt_dec a b); split; intros; auto; discriminate. Qed.

Lemma Rltb_false (a b : R) : Rltb a b = false <-> b <= a.
Proof.
  unfold Rltb. destruct (Rlt_dec a b); split; intros; auto; try discriminate; lra.
Qed.

Lemma Rgtb_true (a b : R) : Rgtb a b = true <-> a > b.
Proof. unfold Rgtb. rewrite Rltb_true. reflexivity. Qed.

Lemma Rgtb_false (a b : R) : Rgtb a b = false <-> a <= b.
Proof. unfold Rgtb. rewrite Rltb_false. reflexivity. Qed.

(** ** Facts about vectors *)

Section VectorFacts.
Import Vector3.

Lemma lengthSq_nonneg (a : Vector3) : 0 <= lengthSq a.
Proof. unfold lengthSq. nra. Qed.

Lemma length_nonneg (a : Vector3) : 0 <= length a.
Proof. apply sqrt_pos. Qed.

Lemma lengthSq_multiplyScalar (a : Vector3) (s : R) :
  lengthSq (multiplyScalar a s) = (s * s) * lengthSq a.
Proof. unfold lengthSq, multiplyScalar; simpl. ring. Qed.

Lemma length_multiplyScalar (a : Vector3) (s : R) :
  length (multiplyScalar a s) = Rabs s * length a.
Proof.
  unfold length. rewrite lengthSq_multiplyScalar.
  rewrite sqrt_mult; [ | nra | apply lengthSq_nonneg ].
  f_equal. replace (s * s) with (Rsqr s) by (unfold Rsqr; ring).
  apply sqrt_Rsqr_abs.
Qed.

Lemma length_zero : length zero = 0.
Proof.
  unfold length, lengthSq, zero; simpl.
  replace (0 * 0 + 0 * 0 + 0 * 0) with 0 by ring. apply sqrt_0.
Qed.

Lemma length_eq_0 (a : Vector3) : length a = 0 -> a = zero.
Proof.
  intros H. unfold length in H. apply sqrt_eq_0 in H; [ | apply lengthSq_nonneg ].
  unfold lengthSq in H. destruct a as [ax ay az]; simpl in H.
  assert (ax = 0) by nra. assert (ay = 0) by nra. assert (az = 0) by nra.
  subst. reflexivity.
Qed.

Lemma multiplyScalar_zero (s : R) : multiplyScalar zero s = zero.
Proof. unfold multiplyScalar, zero; simpl. f_equal; ring. Qed.

Lemma orOne_nonzero (v : R) : v <> 0 -> orOne v = v.
Proof. unfold orOne. destruct (Req_dec_T v 0); congruence. Qed.

Lemma length_divideScalar_self (a : Vector3) :
  length a <> 0 -> length (divideScalar a (length a)) = 1.
Proof.
  intros H. unfold divideScalar. rewrite length_multiplyScalar.
  pose proof (length_nonneg a).
  rewrite Rabs_right by (apply Rle_ge; apply Rlt_le; apply Rdiv_lt_0_compat; lra).
  field. exact H.
Qed.

Lemma length_normalize (a : Vector3) :
  length a <> 0 -> length (normalize a) = 1.
Proof.
  intros H. unfold normalize. rewrite orOne_nonzero by exact H.
  apply length_divideScalar_self; exact H.
Qed.

Lemma length_normalize_le (a : Vector3) : length (normalize a) <= 1.
Proof.
  destruct (Req_dec_T (length a) 0) as [E | E].
  - apply length_eq_0 in E. subst a. unfold normalize, divideScalar.
    rewrite multiplyScalar_zero, length_zero. lra.
  - rewrite length_normalize by exact E. lra.
Qed.

(** The length of a clamped vector: the clamped length, or [0] for the
    zero vector. *)
Lemma length_clampLength (a : Vector3) (mx : R) :
  0 <= mx -> length (clampLength a 0 mx) = Rmin mx (length a).
Proof.
  intros Hmx. unfold clampLength. rewrite length_multiplyScalar.
  pose proof (length_nonneg a) as Hl.
  assert (Hm : 0 <= Rmin mx (length a)) by (apply Rmin_glb; assumption).
  rewrite Rmax_right by exact Hm.
  rewrite Rabs_right by lra.
  destruct (Req_dec_T (length a) 0) as [E | E].
  - pose proof (length_eq_0 a E) as Ha. rewrite E.
    rewrite Rmin_right by lra. ring.
  - rewrite orOne_nonzero by exact E.
    rewrite length_divideScalar_self by exact E. ring.
Qed.

Lemma length_clampLength_le (a : Vector3) (mx : R) :
  0 <= mx -> length (clampLength a 0 mx) <= mx.
Proof. intros H. rewrite length_clampLength by exact H. apply Rmin_l. Qed.

End VectorFacts.


(** ** The store: loops and array updates *)

Section StoreFacts.
Context {S A : Type}.

Lemma forOf_readonly (idx : list nat) (body : nat -> A -> State S A) :
  (forall i a s, snd (body i a s) = s) ->
  forall acc s, snd (forOf idx body acc s) = s.
Proof.
  intros Hb. induction idx as [ | i rest IH]; intros acc s; simpl.
  - reflexivity.
  - unfold bind. specialize (Hb i acc s).
    destruct (body i acc s) as [a s']. simpl in Hb. subst s'. apply IH.
Qed.

Lemma forOf_skip (idx : list nat) (body : nat -> A -> State S A) (s : S) :
  (forall i a, In i idx -> body i a s = (a, s)) ->
  forall acc, forOf idx body acc s = (acc, s).
Proof.
  induction idx as [ | i rest IH]; intros Hb acc; simpl.
  - reflexivity.
  - unfold bind. rewrite Hb by (left; reflexivity).
    apply IH. intros j a Hj. apply Hb. right. exact Hj.
Qed.

Lemma forOf_invariant (P : A -> Prop) (idx : list nat)
    (body : nat -> A -> State S A) :
  (forall i a s, P a -> P (fst (body i a s))) ->
  forall acc s, P acc -> P (fst (forOf idx body acc s)).
Proof.
  intros Hb. induction idx as [ | i rest IH]; intros acc s Hacc; simpl.
  - exact Hacc.
  - unfold bind. specialize (Hb i acc s Hacc).
    destruct (body i acc s) as [a s']. simpl in Hb. apply IH. exact Hb.
Qed.

End StoreFacts.

Section ArrayFacts.
Context {A : Type}.

Lemma length_updAt (i : nat) (f : A -> A) (l : list A) :
  List.length (updAt i f l) = List.length l.
Proof.
  revert i. induction l as [ | a r IH]; intros [ | j]; simpl; auto.
Qed.

Lemma nth_updAt_eq (i : nat) (f : A -> A) (l : list A) (d : A) :
  (i < List.length l)%nat -> nth i (updAt i f l) d = f (nth i l d).
Proof.
  revert i. induction l as [ | a r IH]; intros [ | j] H; simpl in *; try lia; auto.
  apply IH. lia.
Qed.

Lemma nth_updAt_ne (i j : nat) (f : A -> A) (l : list A) (d : A) :
  i <> j -> nth j (updAt i f l) d = nth j l d.
Proof.
  revert i j. induction l as [ | a r IH]; intros [ | i] [ | j] H; simpl; auto;
    try congruence.
Qed.

Lemma updAt_same (i : nat) (l : list A) (d : A) :
  updAt i (fun _ => nth i l d) l = l.
Proof.
  revert i. induction l as [ | a r IH]; intros [ | j]; simpl; auto.
  f_equal. apply IH.
Qed.

End ArrayFacts.

(** ** Steering reads, it does not write *)

Section Purity.
Import Vector3 Boid.

Lemma onThis_run {A : Type} (this : nat) (m : State Boid A) (s : Swarm) :
  onThis this m s =
  (eval m (nth this s dummy), updAt this (fun _ => exec m (nth this s dummy)) s).
Proof.
  unfold onThis, eval, exec. destruct (m (nth this s dummy)); reflexivity.
Qed.

Lemma seek_run (target : Vector3) (b : Boid) :
  seek target b =
  (clampLength
     (subVectors
        (multiplyScalar (normalize (subVectors target (position b))) CONFIG.maxSpeed)
        (velocity b)) 0 CONFIG.maxForce, b).
Proof. reflexivity. Qed.

(** The neighbour scan of separation, alignment and cohesion leaves the
    array as it found it: its body only reads. *)
Ltac scan_reads_only this s :=
  let Hro := fresh "Hro" in
  let E := fresh "E" in
  let Hs := fresh "Hs" in
  match goal with
  | |- context [forOf ?idx ?body ?acc s] =>
      pose proof (forOf_readonly idx body) as Hro;
      assert (Hs : snd (forOf idx body acc s) = s);
      [ apply Hro; intros i ac st;
        destruct (Nat.eqb i this); [ reflexivity | ];
        unfold bind, getAt, ret;
        match goal with |- context [if ?c then _ else _] => destruct c end;
        reflexivity
      | destruct (forOf idx body acc s) as [a s'] eqn:E;
        simpl in Hs; subst s'; clear Hro ]
  end.

Lemma separation_exec (this : nat) (s : Swarm) : exec (separation this) s = s.
Proof.
  unfold exec, separation, bind, get. scan_reads_only this s.
  destruct (Nat.ltb 0 (snd a)); reflexivity.
Qed.

Lemma alignment_exec (this : nat) (s : Swarm) : exec (alignment this) s = s.
Proof.
  unfold exec, alignment, bind, get. scan_reads_only this s.
  destruct (Nat.ltb 0 (snd a)); reflexivity.
Qed.

Lemma cohesion_exec (this : nat) (s : Swarm) : exec (cohesion this) s = s.
Proof.
  unfold exec, cohesion, bind, get. scan_reads_only this s.
  destruct (Nat.ltb 0 (snd a)); [ | reflexivity ].
  rewrite onThis_run. simpl. apply updAt_same.
Qed.

End Purity.

Section Runs.
Import Vector3 Boid.

Lemma run_split {S A : Type} (m : State S A) (s : S) : m s = (eval m s, exec m s).
Proof. unfold eval, exec. destruct (m s); reflexivity. Qed.

Lemma separation_run (this : nat) (s : Swarm) :
  separation this s = (eval (separation this) s, s).
Proof. rewrite (run_split (separation this) s), separation_exec. reflexivity. Qed.

Lemma alignment_run (this : nat) (s : Swarm) :
  alignment this s = (eval (alignment this) s, s).
Proof. rewrite (run_split (alignment this) s), alignment_exec. reflexivity. Qed.

Lemma cohesion_run (this : nat) (s : Swarm) :
  cohesion this s = (eval (cohesion this) s, s).
Proof. rewrite (run_split (cohesion this) s), cohesion_exec. reflexivity. Qed.

Lemma length_subVectors (a b : Vector3) : length (subVectors a b) = distanceTo a b.
Proof. reflexivity. Qed.

Lemma multiplyScalar_assoc (v : Vector3) (a b : R) :
  multiplyScalar (multiplyScalar v a) b = multiplyScalar v (a * b).
Proof. unfold multiplyScalar; simpl. f_equal; ring. Qed.

(** The two outcomes of [mouseRepel]. *)
Lemma mouseRepel_near (mp : Vector3) (b : Boid) :
  0 < distanceTo (position b) mp < CONFIG.mouseRepelRadius ->
  mouseRepel mp b =
  (clampLength
     (multiplyScalar (normalize (subVectors (position b) mp))
        (CONFIG.mouseRepelStrength *
         (1 - distanceTo (position b) mp / CONFIG.mouseRepelRadius)))
     0 (CONFIG.maxForce * 4),
   setIsNearMouse true b).
Proof.
  intros [H0 H1]. unfold mouseRepel, bind, get.
  assert (E1 : Rltb (distanceTo (position b) mp) CONFIG.mouseRepelRadius = true)
    by (apply Rltb_true; exact H1).
  assert (E2 : Rgtb (distanceTo (position b) mp) 0 = true)
    by (apply Rgtb_true; lra).
  rewrite E1, E2. reflexivity.
Qed.

Lemma mouseRepel_far (mp : Vector3) (b : Boid) :
  distanceTo (position b) mp <= 0 \/
  CONFIG.mouseRepelRadius <= distanceTo (position b) mp ->
  mouseRepel mp b = (zero, b).
Proof.
  intros H. unfold mouseRepel, bind, get.
  destruct H as [H | H].
  - apply Rgtb_false in H. rewrite H, andb_false_r. reflexivity.
  - apply Rltb_false in H. rewrite H. reflexivity.
Qed.

Lemma mouseRepel_cases (mp : Vector3) (b : Boid) :
  exec (mouseRepel mp) b = b \/ exec (mouseRepel mp) b = setIsNearMouse true b.
Proof.
  destruct (Rlt_dec 0 (distanceTo (position b) mp)) as [H0 | H0];
    [ destruct (Rlt_dec (distanceTo (position b) mp) CONFIG.mouseRepelRadius)
        as [H1 | H1] | ].
  - right. unfold exec. rewrite mouseRepel_near by lra. reflexivity.
  - left. unfold exec. rewrite mouseRepel_far by lra. reflexivity.
  - left. unfold exec. rewrite mouseRepel_far by lra. reflexivity.
Qed.

End Runs.

(** ** Running [flock] and [update] on one boid *)

Section FlockUpdate.
Import Vector3 Boid.

Lemma flock_run (this : nat) (mp : Vector3) (active scattered : bool) (s : Swarm) :
  flock this mp active scattered s =
  (tt, updAt this
         (fun _ => exec (flockOnThis (sepOf this s) (aliOf this s) (cohOf this s)
                                     mp active scattered) (nth this s dummy)) s).
Proof.
  unfold flock, bind. rewrite separation_run, alignment_run, cohesion_run.
  rewrite onThis_run. f_equal.
  unfold eval. destruct (flockOnThis _ _ _ _ _ _ _) as [[] ?]. reflexivity.
Qed.

Lemma mouseRepel_position (mp : Vector3) (b : Boid) :
  position (exec (mouseRepel mp) b) = position b.
Proof. destruct (mouseRepel_cases mp b) as [E | E]; rewrite E; reflexivity. Qed.

Lemma mouseRepel_velocity (mp : Vector3) (b : Boid) :
  velocity (exec (mouseRepel mp) b) = velocity b.
Proof. destruct (mouseRepel_cases mp b) as [E | E]; rewrite E; reflexivity. Qed.

Lemma mouseRepel_acceleration (mp : Vector3) (b : Boid) :
  acceleration (exec (mouseRepel mp) b) = acceleration b.
Proof. destruct (mouseRepel_cases mp b) as [E | E]; rewrite E; reflexivity. Qed.

Lemma mouseRepel_homePosition (mp : Vector3) (b : Boid) :
  homePosition (exec (mouseRepel mp) b) = homePosition b.
Proof. destruct (mouseRepel_cases mp b) as [E | E]; rewrite E; reflexivity. Qed.

(** The repulsion depends on the boid through its position only. *)
Lemma mouseRepel_eval_position (mp : Vector3) (b1 b2 : Boid) :
  position b1 = position b2 ->
  eval (mouseRepel mp) b1 = eval (mouseRepel mp) b2.
Proof.
  intros E. unfold eval, mouseRepel, bind, get. rewrite E.
  destruct (Rltb _ _ && Rgtb _ _); simpl; [ rewrite E | ]; reflexivity.
Qed.

Lemma applyMouse_run (mp : Vector3) (b : Boid) :
  exec (mouseForce <- mouseRepel mp ;; applyForce mouseForce) b =
  setAcceleration (add (acceleration b) (eval (mouseRepel mp) b))
                  (exec (mouseRepel mp) b).
Proof.
  unfold exec at 1. unfold bind. rewrite (run_split (mouseRepel mp) b).
  unfold applyForce, modify; simpl. rewrite mouseRepel_acceleration. reflexivity.
Qed.

(** [flockOnThis] in scattered mode, field by field. *)
Lemma flockOnThis_scattered (sep ali coh mp : Vector3) (active : bool) (b : Boid) :
  let b' := exec (flockOnThis sep ali coh mp active true) b in
  position b' = position b /\ velocity b' = velocity b /\
  homePosition b' = homePosition b /\
  acceleration b' =
    (let a := add (add (add (acceleration b) sep) ali) coh in
     if active then add a (eval (mouseRepel mp) b) else a).
Proof.
  destruct active; cbv zeta.
  - set (b1 := setAcceleration (add (add (add (acceleration b) sep) ali) coh) b).
    assert (E : exec (flockOnThis sep ali coh mp true true) b =
                exec (mouseForce <- mouseRepel mp ;; applyForce mouseForce) b1)
      by reflexivity.
    rewrite E, applyMouse_run. simpl.
    rewrite mouseRepel_position, mouseRepel_velocity, mouseRepel_homePosition.
    repeat split; try reflexivity.
    f_equal. apply mouseRepel_eval_position. reflexivity.
  - repeat split; reflexivity.
Qed.

(** [flockOnThis] in formed mode, field by field. *)
Lemma flockOnThis_formed (sep ali coh mp : Vector3) (active : bool) (b : Boid) :
  let b' := exec (flockOnThis sep ali coh mp active false) b in
  let p := lerp (position b) (homePosition b) 0.1 in
  position b' = p /\ velocity b' = zero /\
  homePosition b' = homePosition b /\
  acceleration b' =
    (if active
     then add (acceleration b) (eval (mouseRepel mp) (setPosition p b))
     else acceleration b).
Proof.
  destruct active; cbv zeta.
  - set (b1 := setPosition (lerp (position b) (homePosition b) 0.1)
                 (setVelocity (Vector3.mk 0 0 0) b)).
    assert (E : exec (flockOnThis sep ali coh mp true false) b =
                exec (mouseForce <- mouseRepel mp ;; applyForce mouseForce) b1)
      by reflexivity.
    rewrite E, applyMouse_run. simpl.
    rewrite mouseRepel_position, mouseRepel_velocity, mouseRepel_homePosition.
    repeat split; try reflexivity.
    f_equal. apply mouseRepel_eval_position. reflexivity.
  - repeat split; reflexivity.
Qed.

End FlockUpdate.

(** ** A pass over the array

    Both loops of [animate] call, for each index in turn, a method that
    rewrites the boid at that index.  When what it writes is a function
    [G i] of the boid it finds there (for every array that satisfies an
    invariant [Inv] the writes preserve), the pass rewrites each visited
    boid by [G] and leaves the others alone. *)

Section Pass.
Import Boid.

Variable body : nat -> State Swarm unit.
Variable G : nat -> Boid -> Boid.
Variable Inv : Swarm -> Prop.

Hypothesis body_run : forall i s, Inv s -> (i < List.length s)%nat ->
  body i s = (tt, updAt i (fun _ => G i (nth i s dummy)) s).
Hypothesis body_inv : forall i s, Inv s -> (i < List.length s)%nat ->
  Inv (updAt i (fun _ => G i (nth i s dummy)) s).

Lemma pass_nth (idx : list nat) :
  NoDup idx ->
  forall s, Inv s -> (forall i, In i idx -> (i < List.length s)%nat) ->
  let s' := exec (forOf idx (fun i _ => body i) tt) s in
  Inv s' /\ List.length s' = List.length s /\
  forall j, nth j s' dummy =
            if in_dec Nat.eq_dec j idx then G j (nth j s dummy) else nth j s dummy.
Proof.
  induction idx as [ | i rest IH]; intros Hnd s Hinv Hrange; cbv zeta.
  - repeat split; auto.
  - inversion Hnd as [ | ? ? Hni Hnd']; subst.
    assert (Hi : (i < List.length s)%nat) by (apply Hrange; left; reflexivity).
    unfold exec; simpl. unfold bind. rewrite body_run by assumption.
    set (s1 := updAt i (fun _ => G i (nth i s dummy)) s).
    assert (Hlen1 : List.length s1 = List.length s) by apply length_updAt.
    assert (IH' := IH Hnd' s1 (body_inv i s Hinv Hi)).
    cbv zeta in IH'. unfold exec in IH'.
    destruct IH' as (Hinv' & Hlen' & Hnth').
    { intros k Hk. rewrite Hlen1. apply Hrange. right. exact Hk. }
    repeat split.
    + exact Hinv'.
    + rewrite Hlen'. exact Hlen1.
    + intros j. rewrite Hnth'.
      destruct (Nat.eq_dec i j) as [E | E].
      * subst j. destruct (in_dec Nat.eq_dec i rest) as [Hin | _]; [ contradiction | ].
        unfold s1. rewrite nth_updAt_eq by exact Hi. reflexivity.
      * unfold s1. rewrite nth_updAt_ne by exact E.
        destruct (in_dec Nat.eq_dec j rest); reflexivity.
Qed.

(** A pass over every index of the array. *)
Lemma pass_all (s : Swarm) :
  Inv s ->
  let s' := exec (forOf (seq 0 (List.length s)) (fun i _ => body i) tt) s in
  Inv s' /\ List.length s' = List.length s /\
  forall j, (j < List.length s)%nat -> nth j s' dummy = G j (nth j s dummy).
Proof.
  intros Hinv. cbv zeta.
  destruct (pass_nth (seq 0 (List.length s)) (seq_NoDup _ _) s Hinv)
    as (H1 & H2 & H3).
  { intros i Hi. apply in_seq in Hi. lia. }
  repeat split; auto.
  intros j Hj. rewrite H3.
  destruct (in_dec Nat.eq_dec j (seq 0 (List.length s))) as [ | Hn]; [ reflexivity | ].
  exfalso. apply Hn. apply in_seq. lia.
Qed.

End Pass.

Section UpdatePass.
Import Vector3 Boid.

Lemma updatePass_nth (scattered : bool) (s : Swarm) :
  let s' := exec (updatePass scattered) s in
  List.length s' = List.length s /\
  forall j, (j < List.length s)%nat ->
            nth j s' dummy = exec (update scattered) (nth j s dummy).
Proof.
  cbv zeta.
  destruct (pass_all (fun i => onThis i (update scattered))
              (fun _ => exec (update scattered)) (fun _ => True)) with (s := s)
    as (_ & H2 & H3); auto.
  { intros i s0 _ _. rewrite onThis_run. f_equal.
    unfold eval. destruct (update scattered (nth i s0 dummy)) as [[] ?]. reflexivity. }
Qed.

Lemma updatePass_exec (scattered : bool) (s : Swarm) :
  exec (updatePass scattered) s = map (exec (update scattered)) s.
Proof.
  destruct (updatePass_nth scattered s) as (Hlen & Hnth).
  apply nth_ext with (d := dummy) (d' := dummy).
  - rewrite length_map. exact Hlen.
  - intros n Hn. rewrite Hlen in Hn. rewrite Hnth by exact Hn.
    rewrite (nth_indep (map (exec (update scattered)) s) dummy
               (exec (update scattered) dummy))
      by (rewrite length_map; exact Hn).
    symmetry. apply map_nth.
Qed.

(** The velocity [update] leaves: the clamped sum, possibly damped. *)
Lemma update_velocity (scattered : bool) (b : Boid) :
  let vc := clampLength (add (velocity b) (acceleration b)) 0 CONFIG.maxSpeed in
  let v' := velocity (exec (update scattered) b) in
  v' = vc \/ v' = multiplyScalar vc 0.85 \/ v' = multiplyScalar vc 0.95.
Proof.
  cbv zeta. unfold exec, update, bind, get, modify, wrapEdges; simpl.
  destruct scattered; simpl.
  - left. reflexivity.
  - destruct (Rltb _ 20); simpl.
    + right. left. reflexivity.
    + destruct (Rltb _ 50); simpl.
      * right. right. reflexivity.
      * left. reflexivity.
Qed.

Lemma maxSpeed_nonneg : 0 <= CONFIG.maxSpeed.
Proof. unfold CONFIG.maxSpeed. lra. Qed.

Lemma maxForce_nonneg : 0 <= CONFIG.maxForce.
Proof. unfold CONFIG.maxForce. lra. Qed.

Lemma update_velocity_bound (scattered : bool) (b : Boid) :
  length (velocity (exec (update scattered) b)) <= CONFIG.maxSpeed.
Proof.
  pose proof (length_clampLength_le (add (velocity b) (acceleration b))
                CONFIG.maxSpeed maxSpeed_nonneg) as Hc.
  pose proof (length_nonneg (clampLength (add (velocity b) (acceleration b))
                               0 CONFIG.maxSpeed)) as Hp.
  destruct (update_velocity scattered b) as [E | [E | E]]; rewrite E.
  - exact Hc.
  - rewrite length_multiplyScalar, Rabs_right by lra. nra.
  - rewrite length_multiplyScalar, Rabs_right by lra. nra.
Qed.

End UpdatePass.

(** ** What the scans read

    Separation, alignment and cohesion read positions and velocities and
    nothing else: two arrays that agree on those give the same steering. *)

Section Kinematics.
Import Vector3 Boid.

Lemma forOf_eval_ext {S A : Type} (idx : list nat) (body : nat -> A -> State S A)
    (s s' : S) :
  (forall i a st, snd (body i a st) = st) ->
  (forall i a, fst (body i a s) = fst (body i a s')) ->
  forall acc, fst (forOf idx body acc s) = fst (forOf idx body acc s').
Proof.
  intros Hro Hext. induction idx as [ | i rest IH]; intros acc; simpl.
  - reflexivity.
  - unfold bind. pose proof (Hro i acc s) as H1. pose proof (Hro i acc s') as H2.
    pose proof (Hext i acc) as H3.
    destruct (body i acc s) as [a s1]. destruct (body i acc s') as [a' s2].
    simpl in *. subst. apply IH.
Qed.

Lemma kin_length (s s' : Swarm) :
  map kin s = map kin s' -> List.length s = List.length s'.
Proof. intros H. rewrite <- (length_map kin s), H. apply length_map. Qed.

Lemma kin_nth (s s' : Swarm) (i : nat) :
  map kin s = map kin s' ->
  position (nth i s dummy) = position (nth i s' dummy) /\
  velocity (nth i s dummy) = velocity (nth i s' dummy).
Proof.
  intros H. assert (E : kin (nth i s dummy) = kin (nth i s' dummy)).
  { rewrite <- (map_nth kin s dummy i), <- (map_nth kin s' dummy i), H.
    reflexivity. }
  unfold kin in E. inversion E. split; reflexivity.
Qed.

Ltac scan_same this s s' H :=
  let Hro := fresh "Hro" in
  let Hext := fresh "Hext" in
  match goal with
  | |- context [forOf ?idx ?body ?acc s] =>
      assert (Hro : forall i a st, snd (body i a st) = st);
      [ intros i ac st;
        destruct (Nat.eqb i this); [ reflexivity | ];
        unfold bind, getAt, ret;
        match goal with |- context [if ?c then _ else _] => destruct c end;
        reflexivity
      | assert (Hext : forall i a, fst (body i a s) = fst (body i a s'));
        [ intros i ac;
          destruct (Nat.eqb i this); [ reflexivity | ];
          unfold bind, getAt, ret;
          let Hp := fresh "Hp" in
          let Hv := fresh "Hv" in
          let Hq := fresh "Hq" in
          destruct (kin_nth s s' i H) as [Hp Hv];
          destruct (kin_nth s s' this H) as [Hq _];
          simpl; rewrite ?Hp, ?Hv, ?Hq;
          match goal with |- context [if ?c then _ else _] => destruct c end;
          reflexivity
        | let Hf := fresh "Hf" in
          let H1 := fresh "H1" in
          let H2 := fresh "H2" in
          pose proof (forOf_eval_ext idx body s s' Hro Hext acc) as Hf;
          pose proof (forOf_readonly idx body Hro acc s) as H1;
          pose proof (forOf_readonly idx body Hro acc s') as H2;
          destruct (forOf idx body acc s) as [a s1];
          destruct (forOf idx body acc s') as [a' s2];
          simpl in Hf, H1, H2; subst a' s1 s2; clear Hro Hext ] ]
  end.

Lemma separation_kin (this : nat) (s s' : Swarm) :
  map kin s = map kin s' ->
  eval (separation this) s = eval (separation this) s'.
Proof.
  intros H. unfold eval, separation, bind, get.
  rewrite <- (kin_length s s' H). scan_same this s s' H.
  destruct (Nat.ltb 0 (snd a)); [ | reflexivity ].
  unfold getAt, ret; simpl. destruct (kin_nth s s' this H) as [_ ->]. reflexivity.
Qed.

Lemma alignment_kin (this : nat) (s s' : Swarm) :
  map kin s = map kin s' ->
  eval (alignment this) s = eval (alignment this) s'.
Proof.
  intros H. unfold eval, alignment, bind, get.
  rewrite <- (kin_length s s' H). scan_same this s s' H.
  destruct (Nat.ltb 0 (snd a)); [ | reflexivity ].
  unfold getAt, ret; simpl. destruct (kin_nth s s' this H) as [_ ->]. reflexivity.
Qed.

Lemma cohesion_kin (this : nat) (s s' : Swarm) :
  map kin s = map kin s' ->
  eval (cohesion this) s = eval (cohesion this) s'.
Proof.
  intros H. unfold eval, cohesion, bind, get.
  rewrite <- (kin_length s s' H). scan_same this s s' H.
  destruct (Nat.ltb 0 (snd a)); [ | reflexivity ].
  rewrite !onThis_run. simpl. unfold eval. rewrite !seek_run. simpl.
  destruct (kin_nth s s' this H) as [-> ->]. reflexivity.
Qed.

Lemma map_updAt_same {A B : Type} (f : A -> B) (g : A -> A) (i : nat) (l : list A) (d : A) :
  f (g (nth i l d)) = f (nth i l d) -> map f (updAt i g l) = map f l.
Proof.
  revert i. induction l as [ | a r IH]; intros [ | j] H; simpl in *; auto.
  - f_equal. exact H.
  - f_equal. apply IH. exact H.
Qed.

End Kinematics.

(** ** The flock pass *)

Section FlockPass.
Import Vector3 Boid.

Lemma flockPass_scattered (mp : Vector3) (active : bool) (s : Swarm) :
  let s' := exec (flockPass mp active true) s in
  map kin s' = map kin s /\ List.length s' = List.length s /\
  forall j, (j < List.length s)%nat ->
    nth j s' dummy =
    exec (flockOnThis (sepOf j s) (aliOf j s) (cohOf j s) mp active true)
         (nth j s dummy).
Proof.
  cbv zeta.
  apply (pass_all (fun i => flock i mp active true)
           (fun j => exec (flockOnThis (sepOf j s) (aliOf j s) (cohOf j s) mp active true))
           (fun s1 => map kin s1 = map kin s)).
  - intros i s1 Hk _. rewrite flock_run. unfold sepOf, aliOf, cohOf.
    rewrite (separation_kin i s1 s Hk), (alignment_kin i s1 s Hk),
            (cohesion_kin i s1 s Hk).
    reflexivity.
  - intros i s1 Hk _. rewrite <- Hk. apply map_updAt_same with (d := dummy).
    destruct (flockOnThis_scattered (sepOf i s) (aliOf i s) (cohOf i s) mp active
                (nth i s1 dummy)) as (Hp & Hv & _).
    unfold kin. rewrite Hp, Hv. reflexivity.
  - reflexivity.
Qed.

Lemma flockPass_formed (mp : Vector3) (active : bool) (s : Swarm) :
  let s' := exec (flockPass mp active false) s in
  List.length s' = List.length s /\
  forall j, (j < List.length s)%nat ->
    nth j s' dummy =
    exec (flockOnThis zero zero zero mp active false) (nth j s dummy).
Proof.
  cbv zeta.
  destruct (pass_all (fun i => flock i mp active false)
           (fun _ => exec (flockOnThis zero zero zero mp active false))
           (fun _ => True)) with (s := s) as (_ & H2 & H3); auto.
  intros i s1 _ _. rewrite flock_run. reflexivity.
Qed.

Lemma animate_boids (w : World) :
  boids (animate w) =
  let sc := fst (modeStep (triggered w) (isScattered w, scatterTimer w)) in
  map (exec (update sc)) (exec (flockPass (mousePos w) (mouseActive w) sc) (boids w)).
Proof.
  unfold animate; simpl. rewrite <- updatePass_exec.
  unfold exec, bind.
  destruct (flockPass _ _ _ (boids w)) as [[] s1]. reflexivity.
Qed.

End FlockPass.

(** ** Steering is pure; only [mouseRepel] writes, and only the flag *)

Section SteeringEffects.
Import Vector3 Boid.

(** C10.  Separation, alignment and cohesion leave the whole [boids]
    array exactly as it was (every field of every boid), [seek] and
    [seekHome] leave the acting boid exactly as it was, and [mouseRepel]
    either leaves the acting boid as it was or sets its [isNearMouse] flag
    and nothing else. *)
Theorem steering_reads_only (this : nat) (s : Swarm) (target mp : Vector3) (b : Boid) :
  exec (separation this) s = s /\
  exec (alignment this) s = s /\
  exec (cohesion this) s = s /\
  exec (seek target) b = b /\
  exec seekHome b = b /\
  (exec (mouseRepel mp) b = b \/ exec (mouseRepel mp) b = setIsNearMouse true b).
Proof.
  split; [ apply separation_exec | ].
  split; [ apply alignment_exec | ].
  split; [ apply cohesion_exec | ].
  split; [ reflexivity | ].
  split; [ reflexivity | ].
  apply mouseRepel_cases.
Qed.

End SteeringEffects.

(** ** Boundary wrap *)

Section Wrap.
Import Vector3 Boid.

Lemma wrapAxis_teleports (c : R) :
  teleports CONFIG.boundarySize c (wrapAxis CONFIG.boundarySize c).
Proof.
  unfold teleports, wrapAxis, CONFIG.boundarySize.
  destruct (Rgtb c 300) eqn:E1.
  - apply Rgtb_true in E1.
    destruct (Rltb (- (300)) (- (300))) eqn:E2.
    + apply Rltb_true in E2. lra.
    + repeat split; intros; lra.
  - apply Rgtb_false in E1.
    destruct (Rltb c (- (300))) eqn:E2.
    + apply Rltb_true in E2. repeat split; intros; lra.
    + apply Rltb_false in E2. repeat split; intros; lra.
Qed.

Lemma update_position (scattered : bool) (b : Boid) :
  let b' := exec (update scattered) b in
  let bound := CONFIG.boundarySize in
  position b' =
  Vector3.mk (wrapAxis bound (x (position b) + x (velocity b')))
             (wrapAxis bound (y (position b) + y (velocity b')))
             (wrapAxis bound (z (position b) + z (velocity b'))).
Proof.
  cbv zeta. unfold exec, update, bind, get, modify, wrapEdges; simpl.
  destruct scattered; simpl.
  - reflexivity.
  - destruct (Rltb _ 20); simpl; [ reflexivity | ].
    destruct (Rltb _ 50); simpl; reflexivity.
Qed.

(** C8.  [wrapEdges] treats each axis on its own: a coordinate strictly
    above [+boundarySize] becomes exactly [-boundarySize], one strictly
    below [-boundarySize] becomes exactly [+boundarySize], one in between
    is kept; nothing else of the boid changes.  In [update] the wrap is
    applied to the integrated position, so a boid on the [+boundarySize]
    edge of an axis whose integrated velocity points outward is at
    [-boundarySize] after the frame, and symmetrically. *)
Theorem wrapEdges_teleports (scattered : bool) (b : Boid) :
  let bound := CONFIG.boundarySize in
  let w := exec wrapEdges b in
  let b' := exec (update scattered) b in
  (teleports bound (x (position b)) (x (position w)) /\
   teleports bound (y (position b)) (y (position w)) /\
   teleports bound (z (position b)) (z (position w)) /\
   velocity w = velocity b /\ acceleration w = acceleration b /\
   homePosition w = homePosition b /\ isNearMouse w = isNearMouse b) /\
  (teleports bound (x (position b) + x (velocity b')) (x (position b')) /\
   teleports bound (y (position b) + y (velocity b')) (y (position b')) /\
   teleports bound (z (position b) + z (velocity b')) (z (position b'))) /\
  (x (position b) = bound -> x (velocity b') > 0 -> x (position b') = - bound) /\
  (x (position b) = - bound -> x (velocity b') < 0 -> x (position b') = bound).
Proof.
  cbv zeta. split; [ | split; [ | split ] ].
  - unfold exec, wrapEdges, modify; simpl.
    repeat split; try apply wrapAxis_teleports.
  - rewrite (update_position scattered b); simpl.
    repeat split; apply wrapAxis_teleports.
  - intros Hx Hv.
    rewrite (update_position scattered b); simpl.
    apply (wrapAxis_teleports (x (position b) + x (velocity (exec (update scattered) b)))).
    lra.
  - intros Hx Hv.
    rewrite (update_position scattered b); simpl.
    apply (wrapAxis_teleports (x (position b) + x (velocity (exec (update scattered) b)))).
    lra.
Qed.

End Wrap.

(** ** An isolated boid *)

Section Isolated.
Import Vector3 Boid.

Lemma not_near (radius : R) (this other : nat) (s : Swarm) :
  isolated radius this s -> (other < List.length s)%nat -> other <> this ->
  Rgtb (distanceTo (position (nth this s dummy)) (position (nth other s dummy))) 0 &&
  Rltb (distanceTo (position (nth this s dummy)) (position (nth other s dummy))) radius
  = false.
Proof.
  intros Hiso Hlt Hne. specialize (Hiso other Hlt Hne). cbv zeta in Hiso.
  destruct (Rgtb _ 0) eqn:E1; [ | reflexivity ].
  destruct (Rltb _ radius) eqn:E2; [ | reflexivity ].
  apply Rgtb_true in E1. apply Rltb_true in E2. exfalso. apply Hiso. lra.
Qed.

Ltac scan_finds_nobody this s Hiso :=
  rewrite forOf_skip;
  [ | let i := fresh "i" in
      let a := fresh "a" in
      let Hi := fresh "Hi" in
      intros i a Hi; apply in_seq in Hi;
      destruct (Nat.eqb_spec i this); [ reflexivity | ];
      unfold bind, getAt, ret;
      rewrite (not_near _ this i s Hiso) by (lia || assumption);
      reflexivity ].

(** C9.  For a boid with no other boid at a strictly positive distance
    below the behaviour's radius, separation, alignment and cohesion each
    return exactly the zero vector: the scan counts nobody, and the
    divisions by the count and by the distance are never reached. *)
Theorem isolated_steering_is_zero (this : nat) (s : Swarm) :
  (isolated CONFIG.separationRadius this s -> eval (separation this) s = zero) /\
  (isolated CONFIG.alignmentRadius this s -> eval (alignment this) s = zero) /\
  (isolated CONFIG.cohesionRadius this s -> eval (cohesion this) s = zero).
Proof.
  repeat split; intros Hiso.
  - unfold eval, separation, bind, get. scan_finds_nobody this s Hiso. reflexivity.
  - unfold eval, alignment, bind, get. scan_finds_nobody this s Hiso. reflexivity.
  - unfold eval, cohesion, bind, get. scan_finds_nobody this s Hiso. reflexivity.
Qed.

End Isolated.

(** ** Mouse repulsion *)

Section MouseRepel.
Import Vector3 Boid.

Lemma clampLength_scaled_unit (u : Vector3) (k mx : R) :
  length u = 1 -> 0 < k -> 0 <= mx ->
  clampLength (multiplyScalar u k) 0 mx = multiplyScalar u (Rmin k mx).
Proof.
  intros Hu Hk Hmx. unfold clampLength.
  assert (Hl : length (multiplyScalar u k) = k).
  { rewrite length_multiplyScalar, Hu, Rabs_right by lra. ring. }
  rewrite Hl. rewrite orOne_nonzero by lra.
  assert (Hm : 0 <= Rmin mx k) by (apply Rmin_glb; lra).
  rewrite Rmax_right by exact Hm.
  unfold divideScalar. rewrite !multiplyScalar_assoc.
  rewrite (Rmin_comm k mx). f_equal. field. lra.
Qed.

(** C6.  With [d] the distance from the boid to the pointer: when
    [0 < d < mouseRepelRadius], [mouseRepel] returns the unit vector from
    the pointer to the boid scaled by
    [min (mouseRepelStrength * (1 - d / mouseRepelRadius)) (4 * maxForce)],
    a vector of exactly that magnitude, and sets [isNearMouse]; when
    [d = 0] or [d >= mouseRepelRadius] it returns the zero vector and
    leaves the boid, flag included, as it was. *)
Theorem mouseRepel_spec (mp : Vector3) (b : Boid) :
  let d := distanceTo (position b) mp in
  let m := Rmin (CONFIG.mouseRepelStrength * (1 - d / CONFIG.mouseRepelRadius))
                (4 * CONFIG.maxForce) in
  (0 < d < CONFIG.mouseRepelRadius ->
     eval (mouseRepel mp) b = multiplyScalar (normalize (subVectors (position b) mp)) m /\
     length (normalize (subVectors (position b) mp)) = 1 /\
     length (eval (mouseRepel mp) b) = m /\
     exec (mouseRepel mp) b = setIsNearMouse true b) /\
  (d = 0 \/ CONFIG.mouseRepelRadius <= d ->
     eval (mouseRepel mp) b = zero /\ exec (mouseRepel mp) b = b).
Proof.
  cbv zeta. split.
  - intros Hd.
    assert (Hu : length (normalize (subVectors (position b) mp)) = 1).
    { apply length_normalize. rewrite length_subVectors. lra. }
    assert (Hk : 0 < CONFIG.mouseRepelStrength *
                     (1 - distanceTo (position b) mp / CONFIG.mouseRepelRadius)).
    { unfold CONFIG.mouseRepelStrength, CONFIG.mouseRepelRadius in *. lra. }
    assert (Hmx : 0 <= CONFIG.maxForce * 4) by (unfold CONFIG.maxForce; lra).
    assert (Hev : eval (mouseRepel mp) b =
                  multiplyScalar (normalize (subVectors (position b) mp))
                    (Rmin (CONFIG.mouseRepelStrength *
                           (1 - distanceTo (position b) mp / CONFIG.mouseRepelRadius))
                          (4 * CONFIG.maxForce))).
    { unfold eval. rewrite mouseRepel_near by exact Hd. simpl.
      rewrite clampLength_scaled_unit by assumption.
      rewrite (Rmult_comm CONFIG.maxForce 4). reflexivity. }
    split; [ exact Hev | ]. split; [ exact Hu | ]. split.
    + rewrite Hev, length_multiplyScalar, Hu.
      rewrite Rabs_right; [ ring | ].
      apply Rle_ge. apply Rmin_glb; unfold CONFIG.maxForce; lra.
    + unfold exec. rewrite mouseRepel_near by exact Hd. reflexivity.
  - intros Hd. unfold eval, exec. rewrite mouseRepel_far.
    + split; reflexivity.
    + destruct Hd as [Hd | Hd]; [ left; lra | right; exact Hd ].
Qed.

End MouseRepel.

(** ** The flock step, by mode *)

Section FlockByMode.
Import Vector3 Boid.

(** C5.  For the boid at index [this] of the array, with [sepOf], [aliOf]
    and [cohOf] the separation, alignment and cohesion vectors scaled by
    their weights.  Formed: after [flock] the velocity is zero, the
    position is the former one moved a tenth of the way to [homePosition],
    and the acceleration has gained nothing, or, with the pointer active,
    the mouse repulsion (taken at the new position) and nothing else.
    Scattered: the acceleration has gained exactly the three weighted
    vectors, and the mouse repulsion with the pointer active; position and
    velocity are untouched.  In both modes no other boid changes. *)
Theorem flock_by_mode (this : nat) (s : Swarm) (mp : Vector3) (active : bool) :
  (this < List.length s)%nat ->
  let b := nth this s dummy in
  let formed := nth this (exec (flock this mp active false) s) dummy in
  let scattered := nth this (exec (flock this mp active true) s) dummy in
  let p := lerp (position b) (homePosition b) 0.1 in
  (velocity formed = zero /\
   position formed = p /\
   acceleration formed =
     (if active then add (acceleration b) (eval (mouseRepel mp) (setPosition p b))
      else acceleration b)) /\
  (acceleration scattered =
     (let a := add (add (add (acceleration b) (sepOf this s)) (aliOf this s))
                   (cohOf this s) in
      if active then add a (eval (mouseRepel mp) b) else a) /\
   position scattered = position b /\
   velocity scattered = velocity b) /\
  (forall j sc, j <> this ->
     nth j (exec (flock this mp active sc) s) dummy = nth j s dummy).
Proof.
  intros Hthis. cbv zeta. unfold exec. rewrite !flock_run. simpl.
  rewrite !nth_updAt_eq by exact Hthis.
  split; [ | split ].
  - destruct (flockOnThis_formed (sepOf this s) (aliOf this s) (cohOf this s)
                mp active (nth this s dummy)) as (Hp & Hv & _ & Ha).
    auto.
  - destruct (flockOnThis_scattered (sepOf this s) (aliOf this s) (cohOf this s)
                mp active (nth this s dummy)) as (Hp & Hv & _ & Ha).
    auto.
  - intros j sc Hj. rewrite flock_run. simpl. apply nth_updAt_ne. congruence.
Qed.

End FlockByMode.

(** ** The speed limit *)

Section SpeedLimit.
Import Vector3 Boid.

Lemma constructor_velocity_bound (home : Vector3) (rx ry rz : R) :
  length (velocity (constructor home rx ry rz)) <= CONFIG.maxSpeed.
Proof.
  change (velocity (constructor home rx ry rz))
    with (multiplyScalar
            (normalize (Vector3.mk ((rx - 0.5) * 2) ((ry - 0.5) * 2) ((rz - 0.5) * 2)))
            (CONFIG.maxSpeed * 0.5)).
  rewrite length_multiplyScalar.
  pose proof (length_normalize_le
                (Vector3.mk ((rx - 0.5) * 2) ((ry - 0.5) * 2) ((rz - 0.5) * 2))) as Hn.
  pose proof (length_nonneg
                (normalize (Vector3.mk ((rx - 0.5) * 2) ((ry - 0.5) * 2) ((rz - 0.5) * 2))))
    as Hp.
  unfold CONFIG.maxSpeed. rewrite Rabs_right by lra. nra.
Qed.

Lemma animate_velocity_bound (w : World) :
  Forall (fun b => length (velocity b) <= CONFIG.maxSpeed) (boids (animate w)).
Proof.
  rewrite animate_boids. cbv zeta. apply Forall_map. apply Forall_forall.
  intros b _. apply update_velocity_bound.
Qed.

(** C1.  After [update], whatever the boid was and whatever the mode, the
    velocity has magnitude at most [maxSpeed]: it is the clamped sum of
    velocity and acceleration, possibly scaled by a damping factor below
    one, and integration and wrap do not touch it.  Hence the bound holds
    for every boid of every state the sketch reaches: those [init] builds
    (speed [maxSpeed / 2] or zero) and those [animate] leaves. *)
Theorem velocity_within_maxSpeed :
  (forall scattered b,
     length (velocity (exec (update scattered) b)) <= CONFIG.maxSpeed) /\
  (forall w, Reachable w ->
     Forall (fun b => length (velocity b) <= CONFIG.maxSpeed) (boids w)).
Proof.
  split.
  - apply update_velocity_bound.
  - intros w Hw. induction Hw as [homes | w mp active Hw IH | w Hw IH].
    + unfold init; simpl. apply Forall_map. apply Forall_forall.
      intros [home [[rx ry] rz]] _. apply constructor_velocity_bound.
    + exact IH.
    + apply animate_velocity_bound.
Qed.

End SpeedLimit.

(** ** The mode controller *)

Section ModeController.
Import Vector3 Boid.

Lemma triggered_iff (w : World) :
  triggered w = true <->
  mouseActive w = true /\
  Exists (fun b => distanceTo (position b) (mousePos w) < 30) (boids w).
Proof.
  unfold triggered, collides. rewrite andb_true_iff, existsb_exists, Exists_exists.
  split; intros [Ha [b [Hin Hb]]]; (split; [ exact Ha | exists b; split; [ exact Hin | ] ]).
  - apply Rltb_true. exact Hb.
  - apply Rltb_true. exact Hb.
Qed.

Lemma modeStep_trigger (m : bool * Z) :
  modeStep true m = (true, (SCATTER_DURATION - 1)%Z).
Proof. reflexivity. Qed.

(** Counting down: [k] frames without a trigger, starting with [t] on the
    timer, [k <= t]. *)
Lemma countdown (k : nat) (t : Z) :
  (Z.of_nat k <= t)%Z ->
  Nat.iter k (modeStep false) (true, t) = (true, (t - Z.of_nat k)%Z).
Proof.
  induction k as [ | k IH]; intros Hk.
  - simpl. f_equal. lia.
  - rewrite Nat.iter_succ, IH by lia.
    unfold modeStep, checkCollision, manageTimer; simpl fst; simpl snd.
    destruct (Z.ltb_spec 0 (t - Z.of_nat k)); [ | lia ].
    f_equal. lia.
Qed.

Lemma animate_mode (w : World) :
  (isScattered (animate w), scatterTimer (animate w)) =
  modeStep (triggered w) (isScattered w, scatterTimer w).
Proof. unfold animate; simpl. symmetry. apply surjective_pairing. Qed.

(** The mode after a run of frames in which the scan never fires. *)
Lemma run_mode (inputs : list (Vector3 * bool)) (w : World) :
  untriggered inputs w ->
  (isScattered (run inputs w), scatterTimer (run inputs w)) =
  Nat.iter (List.length inputs) (modeStep false) (isScattered w, scatterTimer w).
Proof.
  revert w. induction inputs as [ | input rest IH]; intros w Hq.
  - reflexivity.
  - destruct Hq as [Hq1 Hq2]. cbn [run List.length].
    rewrite (IH _ Hq2). unfold frame. rewrite animate_mode, Hq1.
    rewrite Nat.iter_succ_r. reflexivity.
Qed.

(** C4.  The mode of the sketch, the pair of [isScattered] and
    [scatterTimer], changes once per frame, by [modeStep] applied to
    whether the guarded collision scan fired; the two passes over the
    swarm run with the mode so computed; the mode starts formed.  The scan
    fires exactly when the pointer is active and some boid is closer than
    30 to it.  A frame in which it fires sets the mode to scattered and the
    timer to [SCATTER_DURATION] whatever they were (re-arming, not adding)
    before the timer's decrement of that same frame.  From then on, without
    another trigger, the mode is scattered in the triggering frame and in
    the next [SCATTER_DURATION - 1] frames, that is for
    [SCATTER_DURATION] frames in all, and formed in the frame after; this
    is stated for the controller alone and for runs of [animate] with
    arbitrary pointer events in between. *)
Theorem mode_controller :
  (forall w,
     (isScattered (animate w), scatterTimer (animate w)) =
       modeStep (triggered w) (isScattered w, scatterTimer w) /\
     boids (animate w) =
       exec (flockPass (mousePos w) (mouseActive w) (isScattered (animate w)) ;;
             updatePass (isScattered (animate w))) (boids w)) /\
  (forall homes, isScattered (init homes) = false /\ scatterTimer (init homes) = 0%Z) /\
  (forall w, triggered w = true <->
     mouseActive w = true /\
     Exists (fun b => distanceTo (position b) (mousePos w) < 30) (boids w)) /\
  (forall m, checkCollision true m = (true, SCATTER_DURATION) /\
             modeStep true m = (true, (SCATTER_DURATION - 1)%Z)) /\
  (forall m k, (k < Z.to_nat SCATTER_DURATION)%nat ->
     Nat.iter k (modeStep false) (modeStep true m) =
       (true, (SCATTER_DURATION - 1 - Z.of_nat k)%Z)) /\
  (forall m, Nat.iter (Z.to_nat SCATTER_DURATION) (modeStep false) (modeStep true m) =
       (false, 0%Z)) /\
  (forall w inputs,
     triggered w = true -> untriggered inputs (animate w) ->
     ((List.length inputs < Z.to_nat SCATTER_DURATION)%nat ->
        isScattered (run inputs (animate w)) = true) /\
     (List.length inputs = Z.to_nat SCATTER_DURATION ->
        isScattered (run inputs (animate w)) = false)).
Proof.
  assert (Hcount : forall m k, (k < Z.to_nat SCATTER_DURATION)%nat ->
            Nat.iter k (modeStep false) (modeStep true m) =
              (true, (SCATTER_DURATION - 1 - Z.of_nat k)%Z)).
  { intros m k Hk. rewrite modeStep_trigger. apply countdown.
    unfold SCATTER_DURATION in *. lia. }
  assert (Hend : forall m,
            Nat.iter (Z.to_nat SCATTER_DURATION) (modeStep false) (modeStep true m) =
              (false, 0%Z)).
  { intros m. rewrite modeStep_trigger.
    replace (Z.to_nat SCATTER_DURATION) with (S 179) by reflexivity.
    rewrite Nat.iter_succ, countdown by (unfold SCATTER_DURATION; lia).
    reflexivity. }
  split; [ | split; [ | split; [ | split; [ | split; [ | split ] ] ] ] ].
  - intros w. split; [ apply animate_mode | reflexivity ].
  - intros homes. split; reflexivity.
  - apply triggered_iff.
  - intros m. split; reflexivity.
  - exact Hcount.
  - exact Hend.
  - intros w inputs Ht Hq.
    pose proof (run_mode inputs (animate w) Hq) as Hrun.
    rewrite animate_mode, Ht in Hrun.
    split.
    + intros Hlen. rewrite (Hcount _ _ Hlen) in Hrun.
      apply (f_equal fst) in Hrun. exact Hrun.
    + intros Hlen. rewrite Hlen, Hend in Hrun.
      apply (f_equal fst) in Hrun. exact Hrun.
Qed.

End ModeController.

(** ** Bounds on the steering contributions *)

Section Contributions.
Import Vector3 Boid.

Lemma add_zero_l (v : Vector3) : add zero v = v.
Proof. destruct v; unfold add, zero; simpl. f_equal; ring. Qed.

Lemma add_zero_r (v : Vector3) : add v zero = v.
Proof. destruct v; unfold add, zero; simpl. f_equal; ring. Qed.

Lemma sub_zero_r (v : Vector3) : sub v zero = v.
Proof. destruct v; unfold sub, zero; simpl. f_equal; ring. Qed.

Lemma clampLength_zero (mx : R) : clampLength zero 0 mx = zero.
Proof. unfold clampLength, divideScalar, multiplyScalar, zero; simpl. f_equal; ring. Qed.

Lemma length_of (a b c l : R) :
  0 <= l -> a * a + b * b + c * c = l * l -> length (Vector3.mk a b c) = l.
Proof.
  intros Hl H. unfold length, lengthSq; simpl. rewrite H. apply sqrt_square. exact Hl.
Qed.

Lemma distanceTo_of (p q : Vector3) (l : R) :
  0 <= l -> distanceToSquared p q = l * l -> distanceTo p q = l.
Proof. intros Hl H. unfold distanceTo. rewrite H. apply sqrt_square. exact Hl. Qed.

Lemma distanceTo_self (p : Vector3) : distanceTo p p = 0.
Proof. apply distanceTo_of; [ lra | ]. unfold distanceToSquared. ring. Qed.

(** The scan of [separation] never adds to [steer] without counting. *)
Lemma separation_value (this : nat) (s : Swarm) :
  eval (separation this) s = zero \/
  exists v, eval (separation this) s = clampLength v 0 CONFIG.maxForce.
Proof.
  unfold eval, separation, bind, get.
  match goal with
  | |- context [forOf ?idx ?body ?acc s] =>
      assert (Hinv : (fun a : Vector3 * nat => snd a = O -> fst a = zero)
                       (fst (forOf idx body acc s)));
      [ apply forOf_invariant; [ | reflexivity ];
        intros i a st Ha;
        destruct (Nat.eqb i this); [ exact Ha | ];
        unfold bind, getAt, ret;
        match goal with |- context [if ?c then _ else _] => destruct c end;
        simpl; [ discriminate | exact Ha ]
      | revert Hinv; destruct (forOf idx body acc s) as [[steer count] s1] ]
  end.
  simpl. intros Hinv. destruct count as [ | n]; simpl.
  - left. apply Hinv. reflexivity.
  - right. eexists. reflexivity.
Qed.

Lemma alignment_value (this : nat) (s : Swarm) :
  eval (alignment this) s = zero \/
  exists v, eval (alignment this) s = clampLength v 0 CONFIG.maxForce.
Proof.
  unfold eval, alignment, bind, get.
  match goal with
  | |- context [forOf ?idx ?body ?acc s] =>
      destruct (forOf idx body acc s) as [[avg count] s1]
  end.
  simpl. destruct count as [ | n]; simpl.
  - left. reflexivity.
  - right. eexists. reflexivity.
Qed.

Lemma cohesion_value (this : nat) (s : Swarm) :
  eval (cohesion this) s = zero \/
  exists v, eval (cohesion this) s = clampLength v 0 CONFIG.maxForce.
Proof.
  unfold eval, cohesion, bind, get.
  match goal with
  | |- context [forOf ?idx ?body ?acc s] =>
      destruct (forOf idx body acc s) as [[com count] s1]
  end.
  cbn [fst snd]. destruct count as [ | n]; cbn [Nat.ltb Nat.leb].
  - left. reflexivity.
  - right. rewrite onThis_run. cbn [fst]. unfold eval. rewrite seek_run.
    eexists. reflexivity.
Qed.

Lemma clamped_or_zero_bound (v : Vector3) :
  v = zero \/ (exists w, v = clampLength w 0 CONFIG.maxForce) ->
  length v <= CONFIG.maxForce.
Proof.
  intros [-> | [w ->]].
  - rewrite length_zero. apply maxForce_nonneg.
  - apply length_clampLength_le. apply maxForce_nonneg.
Qed.

Lemma mouseRepel_bound (mp : Vector3) (b : Boid) :
  length (eval (mouseRepel mp) b) <= 4 * CONFIG.maxForce.
Proof.
  assert (Hmx : 0 <= CONFIG.maxForce * 4) by (unfold CONFIG.maxForce; lra).
  unfold eval, mouseRepel, bind, get.
  destruct (Rltb _ _ && Rgtb _ _); simpl.
  - rewrite (Rmult_comm 4). apply length_clampLength_le. exact Hmx.
  - rewrite length_zero. lra.
Qed.

(** C2 (as amended).  Before its weight is applied, each of separation,
    alignment and cohesion has magnitude at most [maxForce].  As added to
    the acceleration by [flock], that is after the weight is multiplied
    in, each is bounded by its weight times [maxForce]: separation by
    [separationWeight * maxForce] (1.5 times [maxForce]), alignment and
    cohesion by [maxForce]; the mouse repulsion is bounded by
    [4 * maxForce]. *)
Theorem contribution_bounds (this : nat) (s : Swarm) (mp : Vector3) (b : Boid) :
  (length (eval (separation this) s) <= CONFIG.maxForce /\
   length (eval (alignment this) s) <= CONFIG.maxForce /\
   length (eval (cohesion this) s) <= CONFIG.maxForce) /\
  (length (sepOf this s) <= CONFIG.separationWeight * CONFIG.maxForce /\
   length (aliOf this s) <= CONFIG.maxForce /\
   length (cohOf this s) <= CONFIG.maxForce) /\
  length (eval (mouseRepel mp) b) <= 4 * CONFIG.maxForce.
Proof.
  pose proof (clamped_or_zero_bound _ (separation_value this s)) as Hs.
  pose proof (clamped_or_zero_bound _ (alignment_value this s)) as Ha.
  pose proof (clamped_or_zero_bound _ (cohesion_value this s)) as Hc.
  split; [ auto | split; [ | apply mouseRepel_bound ] ].
  unfold sepOf, aliOf, cohOf. rewrite !length_multiplyScalar.
  unfold CONFIG.separationWeight, CONFIG.alignmentWeight, CONFIG.cohesionWeight.
  rewrite !Rabs_right by lra.
  repeat split; lra.
Qed.

End Contributions.

(** ** The weighted separation can exceed [maxForce] *)

Section WeightedSeparation.
Import Vector3 Boid.

Lemma pair_distance : distanceTo (Vector3.mk 0 0 0) (Vector3.mk 1 0 0) = 1.
Proof. apply distanceTo_of; [ lra | ]. unfold distanceToSquared; simpl. ring. Qed.

Lemma pair_separation :
  eval (separation 0) pairSwarm =
  clampLength
    (sub (multiplyScalar
            (normalize
               (divideScalar
                  (add zero
                     (divideScalar
                        (normalize (subVectors (Vector3.mk 0 0 0) (Vector3.mk 1 0 0))) 1))
                  (INR 1)))
            CONFIG.maxSpeed)
         zero)
    0 CONFIG.maxForce.
Proof.
  unfold eval, separation, bind, get, pairSwarm.
  cbn [List.length seq forOf Nat.eqb bind getAt nth ret fst snd still position velocity].
  unfold bind, getAt. cbn [nth fst snd still position velocity].
  rewrite pair_distance.
  rewrite (proj2 (Rgtb_true 1 0)) by lra.
  rewrite (proj2 (Rltb_true 1 CONFIG.separationRadius))
    by (unfold CONFIG.separationRadius; lra).
  reflexivity.
Qed.

Lemma length_divideScalar_one (v : Vector3) : length (divideScalar v 1) = length v.
Proof.
  unfold divideScalar. rewrite length_multiplyScalar.
  replace (1 / 1) with 1 by field. rewrite Rabs_R1. ring.
Qed.

Lemma pair_separation_length :
  length (sepOf 0 pairSwarm) = 0.075.
Proof.
  unfold sepOf. rewrite pair_separation.
  rewrite length_multiplyScalar.
  rewrite length_clampLength by apply maxForce_nonneg.
  rewrite sub_zero_r, length_multiplyScalar.
  rewrite length_normalize.
  - unfold CONFIG.separationWeight, CONFIG.maxForce, CONFIG.maxSpeed.
    rewrite !Rabs_right by lra. rewrite Rmin_left by lra. lra.
  - change (INR 1) with 1.
    rewrite length_divideScalar_one, add_zero_l, length_divideScalar_one.
    rewrite length_normalize; [ lra | ].
    rewrite length_subVectors, pair_distance. lra.
Qed.

(** C2, counterexample.  Two boids at rest one unit apart: the separation
    vector of the first, once multiplied by [separationWeight] as [flock]
    applies it, has magnitude 0.075, above [maxForce] = 0.05. *)
Lemma weighted_separation_exceeds_maxForce :
  length (multiplyScalar (eval (separation 0) pairSwarm) CONFIG.separationWeight)
    = 0.075 /\
  ~ (length (multiplyScalar (eval (separation 0) pairSwarm) CONFIG.separationWeight)
       <= CONFIG.maxForce).
Proof.
  pose proof pair_separation_length as H. unfold sepOf in H.
  split; [ exact H | ]. rewrite H. unfold CONFIG.maxForce. lra.
Qed.

End WeightedSeparation.

(** ** The flock pass and the snapshot *)

Section Snapshot.
Import Vector3 Boid.

(** C3 (as amended).  In scattered mode the flock pass leaves the
    position and the velocity of every boid as they were, and what it adds
    to the acceleration of a boid is the steering computed from the array
    as it was when the pass began ([sepOf j s], [aliOf j s], [cohOf j s]
    and the mouse repulsion all read [s]): every boid steers by the same
    snapshot, and positions and velocities move in the update pass only.
    In formed mode the flock pass itself zeroes the velocity and moves the
    position towards home; what it leaves of a boid is a function of that
    boid alone, so the order of the pass still has no influence. *)
Theorem flock_pass_snapshot (mp : Vector3) (active : bool) (s : Swarm) (j : nat) :
  (j < List.length s)%nat ->
  let b := nth j s dummy in
  let sc := nth j (exec (flockPass mp active true) s) dummy in
  let fm := nth j (exec (flockPass mp active false) s) dummy in
  (position sc = position b /\
   velocity sc = velocity b /\
   acceleration sc =
     (let a := add (add (add (acceleration b) (sepOf j s)) (aliOf j s)) (cohOf j s) in
      if active then add a (eval (mouseRepel mp) b) else a)) /\
  fm = exec (flockOnThis zero zero zero mp active false) b.
Proof.
  intros Hj. cbv zeta.
  destruct (flockPass_scattered mp active s) as (_ & _ & Hsc).
  destruct (flockPass_formed mp active s) as (_ & Hfm).
  rewrite (Hsc j Hj), (Hfm j Hj).
  destruct (flockOnThis_scattered (sepOf j s) (aliOf j s) (cohOf j s) mp active
              (nth j s dummy)) as (Hp & Hv & _ & Ha).
  auto.
Qed.

(** C3, counterexample.  A formed swarm of one moving boid ten units from
    its home, the pointer inactive: after the flock pass alone the boid
    has moved (to nine units from home) and its velocity is zero. *)
Lemma flock_pass_moves_formed_boid :
  let s := [strayBoid] in
  let s' := exec (flockPass zero false false) s in
  position (nth 0 s' dummy) = Vector3.mk (10 + (0 - 10) * 0.1) (0 + (0 - 0) * 0.1) (0 + (0 - 0) * 0.1) /\
  position (nth 0 s' dummy) <> position (nth 0 s dummy) /\
  velocity (nth 0 s' dummy) <> velocity (nth 0 s dummy).
Proof.
  cbv zeta.
  destruct (flockPass_formed zero false [strayBoid]) as (_ & H).
  rewrite (H 0%nat) by (simpl; lia).
  destruct (flockOnThis_formed zero zero zero zero false (nth 0 [strayBoid] dummy))
    as (Hp & Hv & _).
  rewrite Hp, Hv. simpl.
  split; [ reflexivity | split ].
  - intros E. apply (f_equal x) in E. simpl in E. lra.
  - intros E. apply (f_equal x) in E. simpl in E. lra.
Qed.

End Snapshot.

(** ** Formed mode: approach to the home position *)

Section FormedConvergence.
Import Vector3 Boid.



Lemma wrapAxis_inside (c : R) :
  - CONFIG.boundarySize <= c <= CONFIG.boundarySize ->
  wrapAxis CONFIG.boundarySize c = c.
Proof. apply wrapAxis_teleports. Qed.

Lemma wrapAxis_range (c : R) :
  - CONFIG.boundarySize <= wrapAxis CONFIG.boundarySize c <= CONFIG.boundarySize.
Proof.
  destruct (wrapAxis_teleports c) as (H1 & H2 & H3).
  unfold CONFIG.boundarySize in *.
  destruct (Rlt_dec 300 c) as [Hc | Hc]; [ rewrite H1 by lra; lra | ].
  destruct (Rlt_dec c (- (300))) as [Hd | Hd]; [ rewrite H2 by lra; lra | ].
  rewrite H3 by lra. lra.
Qed.

Lemma update_fixed (scattered : bool) (b : Boid) :
  let b' := exec (update scattered) b in
  homePosition b' = homePosition b /\ acceleration b' = zero /\ isNearMouse b' = false.
Proof.
  cbv zeta. unfold exec, update, bind, get, modify, wrapEdges; simpl.
  destruct scattered; simpl.
  - repeat split.
  - destruct (Rltb _ 20); simpl; [ repeat split | ].
    destruct (Rltb _ 50); simpl; repeat split.
Qed.

Lemma update_inBox (scattered : bool) (b : Boid) :
  inBox CONFIG.boundarySize (position (exec (update scattered) b)).
Proof.
  rewrite update_position. unfold inBox; simpl.
  repeat split; apply wrapAxis_range.
Qed.





End FormedConvergence.

Section FormedRun.
Import Vector3 Boid.





End FormedRun.

(** ** Reachable states are settled *)

Section ReachableStates.
Import Vector3 Boid.

(** At every frame boundary no acceleration is pending, and a boid is
    inside the wrap box or still at its home position. *)
Lemma reachable_settled (w : World) :
  Reachable w ->
  Forall (fun b => acceleration b = zero /\
                   (inBox CONFIG.boundarySize (position b) \/
                    position b = homePosition b)) (boids w).
Proof.
  intros Hw. induction Hw as [homes | w mp active Hw IH | w Hw IH].
  - unfold init; simpl. apply Forall_map. apply Forall_forall.
    intros [home [[rx ry] rz]] _. split; [ reflexivity | right; reflexivity ].
  - exact IH.
  - rewrite animate_boids. cbv zeta. apply Forall_map. apply Forall_forall.
    intros b _. split.
    + apply update_fixed.
    + left. apply update_inBox.
Qed.

Lemma clampLength_small (v : Vector3) (mx : R) :
  length v <= mx -> clampLength v 0 mx = v.
Proof.
  intros Hle. pose proof (length_nonneg v) as Hl.
  destruct (Req_dec_T (length v) 0) as [E | E].
  - apply length_eq_0 in E. subst v. apply clampLength_zero.
  - unfold clampLength. rewrite orOne_nonzero by exact E.
    rewrite Rmin_right by exact Hle. rewrite Rmax_right by exact Hl.
    unfold divideScalar. rewrite multiplyScalar_assoc.
    destruct v as [a b c]. unfold multiplyScalar; simpl. f_equal; field; exact E.
Qed.

End ReachableStates.

(** ** The properties at concrete inputs *)

Section Witnesses.
Import Vector3 Boid.

(** C1 at the state one frame after [init] with a single boid. *)
Lemma velocity_within_maxSpeed_witness :
  Reachable (animate (init [(zero, (1, 0.5, 0.5))])) /\
  Forall (fun b => length (velocity b) <= CONFIG.maxSpeed)
         (boids (animate (init [(zero, (1, 0.5, 0.5))]))).
Proof.
  assert (H : Reachable (animate (init [(zero, (1, 0.5, 0.5))])))
    by (apply Reachable_frame, Reachable_init).
  split; [ exact H | ].
  exact (proj2 velocity_within_maxSpeed _ H).
Defined.

(** C3 (as amended) at the first of two boids one unit apart, scattered. *)
Lemma flock_pass_snapshot_witness :
  (0 < List.length pairSwarm)%nat /\
  position (nth 0 (exec (flockPass zero false true) pairSwarm) dummy) =
  position (nth 0 pairSwarm dummy).
Proof.
  assert (H : (0 < List.length pairSwarm)%nat) by (simpl; lia).
  split; [ exact H | ].
  exact (proj1 (proj1 (flock_pass_snapshot zero false pairSwarm 0 H))).
Defined.

(** C4 at a world whose pointer touches a boid, followed by two frames
    with the pointer gone. *)
Lemma mode_controller_witness :
  triggered touchedWorld = true /\
  untriggered [(zero, false); (zero, false)] (animate touchedWorld) /\
  isScattered (run [(zero, false); (zero, false)] (animate touchedWorld)) = true.
Proof.
  assert (Ht : triggered touchedWorld = true).
  { unfold triggered, collides, touchedWorld; simpl.
    rewrite distanceTo_self.
    rewrite (proj2 (Rltb_true 0 30)) by lra. reflexivity. }
  assert (Hq : untriggered [(zero, false); (zero, false)] (animate touchedWorld)).
  { repeat split. }
  split; [ exact Ht | ]. split; [ exact Hq | ].
  pose proof (proj2 (proj2 (proj2 (proj2 (proj2 (proj2 mode_controller)))))) as Hrun.
  apply (proj1 (Hrun touchedWorld [(zero, false); (zero, false)] Ht Hq)).
  unfold SCATTER_DURATION. simpl. lia.
Defined.

(** C5 at the first of two boids one unit apart, formed. *)
Lemma flock_by_mode_witness :
  (0 < List.length pairSwarm)%nat /\
  velocity (nth 0 (exec (flock 0 zero false false) pairSwarm) dummy) = zero.
Proof.
  assert (H : (0 < List.length pairSwarm)%nat) by (simpl; lia).
  split; [ exact H | ].
  exact (proj1 (proj1 (flock_by_mode 0 pairSwarm zero false H))).
Defined.

(** C6 at a boid one unit from the pointer, and at a boid on the pointer. *)
Lemma mouseRepel_spec_witness :
  (0 < distanceTo (position (still (Vector3.mk 1 0 0))) (Vector3.mk 0 0 0)
     < CONFIG.mouseRepelRadius /\
   exec (mouseRepel (Vector3.mk 0 0 0)) (still (Vector3.mk 1 0 0)) =
   setIsNearMouse true (still (Vector3.mk 1 0 0))) /\
  (distanceTo (position (still zero)) zero = 0 /\
   eval (mouseRepel zero) (still zero) = zero).
Proof.
  assert (Hd : distanceTo (position (still (Vector3.mk 1 0 0))) (Vector3.mk 0 0 0) = 1).
  { apply distanceTo_of; [ lra | ]. unfold distanceToSquared; simpl. lra. }
  assert (H1 : 0 < distanceTo (position (still (Vector3.mk 1 0 0))) (Vector3.mk 0 0 0)
               < CONFIG.mouseRepelRadius).
  { rewrite Hd. unfold CONFIG.mouseRepelRadius. lra. }
  assert (H2 : distanceTo (position (still zero)) zero = 0) by apply distanceTo_self.
  split; (split; [ assumption | ]).
  - exact (proj2 (proj2 (proj2
             (proj1 (mouseRepel_spec (Vector3.mk 0 0 0) (still (Vector3.mk 1 0 0))) H1)))).
  - exact (proj1 (proj2 (mouseRepel_spec zero (still zero)) (or_introl H2))).
Defined.


(** C8 at a boid on the edge moving outward, scattered. *)
Lemma wrapEdges_teleports_witness :
  x (position edgeBoid) = CONFIG.boundarySize /\
  x (velocity (exec (update true) edgeBoid)) > 0 /\
  x (position (exec (update true) edgeBoid)) = - CONFIG.boundarySize.
Proof.
  assert (H1 : x (position edgeBoid) = CONFIG.boundarySize) by reflexivity.
  assert (H2 : x (velocity (exec (update true) edgeBoid)) > 0).
  { assert (Hc : clampLength (add (velocity edgeBoid) (acceleration edgeBoid))
                   0 CONFIG.maxSpeed = Vector3.mk 1 0 0).
    { cbn [edgeBoid velocity acceleration]. rewrite add_zero_r.
      apply clampLength_small.
      rewrite (length_of 1 0 0 1) by lra. unfold CONFIG.maxSpeed. lra. }
    destruct (update_velocity true edgeBoid) as [E | [E | E]];
      rewrite E, Hc; simpl; lra. }
  split; [ exact H1 | ]. split; [ exact H2 | ].
  exact (proj1 (proj2 (proj2 (wrapEdges_teleports true edgeBoid))) H1 H2).
Defined.

(** C9 at two boids on the same spot. *)
Lemma isolated_steering_is_zero_witness :
  isolated CONFIG.separationRadius 0 [still zero; still zero] /\
  eval (separation 0) [still zero; still zero] = zero.
Proof.
  assert (H : isolated CONFIG.separationRadius 0 [still zero; still zero]).
  { intros other Hlt Hne. simpl in Hlt.
    assert (other = 1%nat) by lia. subst other. cbv zeta.
    cbn [nth still position]. rewrite distanceTo_self. lra. }
  split; [ exact H | ].
  exact (proj1 (isolated_steering_is_zero 0 [still zero; still zero]) H).
Defined.

End Witnesses.

(** * Further properties of the engine *)

(** ** What a frame never changes *)

Section FrameInvariants.
Import Vector3 Boid.

Lemma flockPass_home (mp : Vector3) (active scattered : bool) (s : Swarm) :
  let s' := exec (flockPass mp active scattered) s in
  List.length s' = List.length s /\
  forall j, (j < List.length s)%nat ->
    homePosition (nth j s' dummy) = homePosition (nth j s dummy).
Proof.
  cbv zeta. destruct scattered.
  - destruct (flockPass_scattered mp active s) as (_ & Hlen & Hnth).
    split; [ exact Hlen | ]. intros j Hj. rewrite (Hnth j Hj).
    apply flockOnThis_scattered.
  - destruct (flockPass_formed mp active s) as (Hlen & Hnth).
    split; [ exact Hlen | ]. intros j Hj. rewrite (Hnth j Hj).
    apply flockOnThis_formed.
Qed.

Lemma animate_homes (w : World) :
  map homePosition (boids (animate w)) = map homePosition (boids w).
Proof.
  rewrite animate_boids. cbv zeta. rewrite map_map.
  set (sc := fst (modeStep (triggered w) (isScattered w, scatterTimer w))).
  destruct (flockPass_home (mousePos w) (mouseActive w) sc (boids w)) as (Hlen & Hnth).
  apply nth_ext with (d := homePosition (exec (update sc) dummy))
                     (d' := homePosition dummy).
  - rewrite !length_map. exact Hlen.
  - intros n Hn. rewrite length_map, Hlen in Hn.
    rewrite (map_nth (fun b => homePosition (exec (update sc) b))
               (exec (flockPass (mousePos w) (mouseActive w) sc) (boids w)) dummy n).
    rewrite (map_nth homePosition (boids w) dummy n).
    destruct (update_fixed sc
                (nth n (exec (flockPass (mousePos w) (mouseActive w) sc) (boids w)) dummy))
      as (Hh & _).
    rewrite Hh. apply Hnth. exact Hn.
Qed.

Lemma run_homes (inputs : list (Vector3 * bool)) (w : World) :
  map homePosition (boids (run inputs w)) = map homePosition (boids w).
Proof.
  revert w. induction inputs as [ | input rest IH]; intros w; simpl.
  - reflexivity.
  - rewrite IH. unfold frame. rewrite animate_homes. reflexivity.
Qed.

(** X1.  However many frames run and whatever the pointer does in
    between, the swarm keeps the size [init] gave it and every boid keeps
    the home position it was constructed with, in the order of the text
    positions. *)
Theorem homes_and_size_fixed (homes : list (Vector3 * (R * R * R)))
    (inputs : list (Vector3 * bool)) :
  map homePosition (boids (run inputs (init homes))) = map fst homes /\
  List.length (boids (run inputs (init homes))) = List.length homes.
Proof.
  assert (H : map homePosition (boids (run inputs (init homes))) = map fst homes).
  { rewrite run_homes. unfold init; simpl. rewrite map_map.
    apply map_ext. intros [home [[rx ry] rz]]. reflexivity. }
  split; [ exact H | ].
  rewrite <- (length_map homePosition), H. apply length_map.
Qed.

(** X2.  At every frame boundary the sketch can reach, every boid has no
    acceleration pending and its [isNearMouse] flag down, and it is inside
    the wrap box or has never left the home position it was created at. *)
Theorem frame_boundary_state (w : World) :
  Reachable w ->
  Forall (fun b => acceleration b = zero /\ isNearMouse b = false /\
                   (inBox CONFIG.boundarySize (position b) \/
                    position b = homePosition b)) (boids w).
Proof.
  intros Hw. induction Hw as [homes | w mp active Hw IH | w Hw IH].
  - unfold init; simpl. apply Forall_map. apply Forall_forall.
    intros [home [[rx ry] rz]] _.
    split; [ reflexivity | split; [ reflexivity | right; reflexivity ] ].
  - exact IH.
  - rewrite animate_boids. cbv zeta. apply Forall_map. apply Forall_forall.
    intros b _. destruct (update_fixed
      (fst (modeStep (triggered w) (isScattered w, scatterTimer w))) b) as (_ & Ha & Hf).
    split; [ exact Ha | split; [ exact Hf | left; apply update_inBox ] ].
Qed.

Lemma modeStep_range (trigger : bool) (m : bool * Z) :
  (0 <= snd m < SCATTER_DURATION)%Z /\ (fst m = false -> snd m = 0%Z) ->
  (0 <= snd (modeStep trigger m) < SCATTER_DURATION)%Z /\
  (fst (modeStep trigger m) = false -> snd (modeStep trigger m) = 0%Z).
Proof.
  destruct m as [sc t]. unfold modeStep, checkCollision, manageTimer, SCATTER_DURATION.
  simpl. intros (Ht & Hf). destruct trigger; simpl.
  - split; [ lia | discriminate ].
  - destruct (Z.ltb_spec 0 t); simpl.
    + split; [ lia | ]. intros Hsc. specialize (Hf Hsc). lia.
    + split; [ lia | ]. intros _. lia.
Qed.

(** X3.  In every state the sketch can reach the scatter timer is
    between 0 and [SCATTER_DURATION - 1] (it never goes negative and is
    never seen at its full value, the frame that arms it also decrements
    it), and whenever the mode is formed the timer is 0. *)
Theorem timer_in_range (w : World) :
  Reachable w ->
  (0 <= scatterTimer w < SCATTER_DURATION)%Z /\
  (isScattered w = false -> scatterTimer w = 0%Z).
Proof.
  intros Hw. induction Hw as [homes | w mp active Hw IH | w Hw IH].
  - unfold init, SCATTER_DURATION; simpl. split; [ lia | reflexivity ].
  - exact IH.
  - pose proof (modeStep_range (triggered w) (isScattered w, scatterTimer w) IH) as H.
    rewrite <- animate_mode in H. exact H.
Qed.

End FrameInvariants.

(** ** Two boids push each other apart *)

Section PairSeparation.
Import Vector3 Boid.

Lemma length_negate (v : Vector3) : length (negate v) = length v.
Proof.
  unfold negate. rewrite length_multiplyScalar.
  rewrite Rabs_left by lra. ring.
Qed.

Lemma negate_zero : negate zero = zero.
Proof. apply multiplyScalar_zero. Qed.

Lemma subVectors_swap (a b : Vector3) : subVectors b a = negate (subVectors a b).
Proof. unfold subVectors, negate, multiplyScalar; simpl. f_equal; ring. Qed.

Lemma distanceTo_sym (a b : Vector3) : distanceTo a b = distanceTo b a.
Proof.
  rewrite <- !length_subVectors, (subVectors_swap b a). apply length_negate.
Qed.

Lemma multiplyScalar_negate (v : Vector3) (s : R) :
  multiplyScalar (negate v) s = negate (multiplyScalar v s).
Proof. unfold negate, multiplyScalar; simpl. f_equal; ring. Qed.

Lemma divideScalar_negate (v : Vector3) (s : R) :
  divideScalar (negate v) s = negate (divideScalar v s).
Proof. unfold divideScalar. apply multiplyScalar_negate. Qed.

Lemma normalize_negate (v : Vector3) : normalize (negate v) = negate (normalize v).
Proof. unfold normalize. rewrite length_negate. apply divideScalar_negate. Qed.

Lemma add_negate (a b : Vector3) : add (negate a) (negate b) = negate (add a b).
Proof. unfold add, negate, multiplyScalar; simpl. f_equal; ring. Qed.

Lemma sub_negate (a b : Vector3) : sub (negate a) (negate b) = negate (sub a b).
Proof. unfold sub, negate, multiplyScalar; simpl. f_equal; ring. Qed.

Lemma clampLength_negate (v : Vector3) (mn mx : R) :
  clampLength (negate v) mn mx = negate (clampLength v mn mx).
Proof.
  unfold clampLength. rewrite length_negate, divideScalar_negate.
  apply multiplyScalar_negate.
Qed.

(** The separation of each boid of a swarm of two. *)
Lemma separation_of_first (b0 b1 : Boid) :
  eval (separation 0) [b0; b1] =
  let d := distanceTo (position b0) (position b1) in
  if Rgtb d 0 && Rltb d CONFIG.separationRadius then
    clampLength
      (sub (multiplyScalar
              (normalize
                 (divideScalar
                    (add zero
                       (divideScalar (normalize (subVectors (position b0) (position b1))) d))
                    (INR 1)))
              CONFIG.maxSpeed)
           (velocity b0))
      0 CONFIG.maxForce
  else zero.
Proof.
  unfold eval, separation, bind, get.
  cbn [List.length seq forOf Nat.eqb bind getAt nth ret fst snd].
  unfold bind, getAt. cbn [nth fst snd].
  destruct (Rgtb _ 0 && Rltb _ _); reflexivity.
Qed.

Lemma separation_of_second (b0 b1 : Boid) :
  eval (separation 1) [b0; b1] =
  let d := distanceTo (position b1) (position b0) in
  if Rgtb d 0 && Rltb d CONFIG.separationRadius then
    clampLength
      (sub (multiplyScalar
              (normalize
                 (divideScalar
                    (add zero
                       (divideScalar (normalize (subVectors (position b1) (position b0))) d))
                    (INR 1)))
              CONFIG.maxSpeed)
           (velocity b1))
      0 CONFIG.maxForce
  else zero.
Proof.
  unfold eval, separation, bind, get.
  cbn [List.length seq forOf Nat.eqb bind getAt nth ret fst snd].
  unfold bind, getAt. cbn [nth fst snd].
  destruct (Rgtb _ 0 && Rltb _ _); reflexivity.
Qed.

(** X4.  In a swarm of two boids whose velocities are opposite (both at
    rest, for one), the separation steering of the second is exactly the
    opposite of the separation steering of the first, whatever their
    positions: the rule pushes the two apart symmetrically. *)
Theorem separation_antisymmetric (b0 b1 : Boid) :
  velocity b1 = negate (velocity b0) ->
  eval (separation 1) [b0; b1] = negate (eval (separation 0) [b0; b1]).
Proof.
  intros Hv. rewrite separation_of_first, separation_of_second. cbv zeta.
  rewrite (distanceTo_sym (position b1) (position b0)).
  destruct (Rgtb _ 0 && Rltb _ _).
  - rewrite (subVectors_swap (position b0) (position b1)), Hv.
    rewrite normalize_negate, divideScalar_negate.
    rewrite <- negate_zero at 1. rewrite add_negate.
    rewrite divideScalar_negate, normalize_negate, multiplyScalar_negate.
    rewrite sub_negate. apply clampLength_negate.
  - symmetry. apply negate_zero.
Qed.

End PairSeparation.

(** ** Free flight, saturation and other consequences *)

Section Consequences.
Import Vector3 Boid.

Lemma isolated_mono (r r' : R) (this : nat) (s : Swarm) :
  r <= r' -> isolated r' this s -> isolated r this s.
Proof.
  intros Hr Hiso other Hlt Hne. specialize (Hiso other Hlt Hne).
  cbv zeta in *. intros [H0 H1]. apply Hiso. lra.
Qed.

Ltac nobody_near this s Hiso :=
  rewrite forOf_skip;
  [ | let i := fresh "i" in
      let a := fresh "a" in
      let Hi := fresh "Hi" in
      intros i a Hi; apply in_seq in Hi;
      destruct (Nat.eqb_spec i this); [ reflexivity | ];
      unfold bind, getAt, ret;
      rewrite (not_near _ this i s Hiso) by (lia || assumption);
      reflexivity ].

Lemma isolated_forces (this : nat) (s : Swarm) :
  isolated CONFIG.alignmentRadius this s ->
  sepOf this s = zero /\ aliOf this s = zero /\ cohOf this s = zero.
Proof.
  intros Hiso.
  assert (Hsep : isolated CONFIG.separationRadius this s).
  { apply (isolated_mono _ CONFIG.alignmentRadius); [ | exact Hiso ].
    unfold CONFIG.separationRadius, CONFIG.alignmentRadius. lra. }
  assert (Hcoh : isolated CONFIG.cohesionRadius this s) by exact Hiso.
  unfold sepOf, aliOf, cohOf.
  repeat split.
  - unfold eval, separation, bind, get. nobody_near this s Hsep.
    apply multiplyScalar_zero.
  - unfold eval, alignment, bind, get. nobody_near this s Hiso.
    apply multiplyScalar_zero.
  - unfold eval, cohesion, bind, get. nobody_near this s Hcoh.
    apply multiplyScalar_zero.
Qed.

(** X5.  Free flight.  A scattered boid with no other boid within the
    alignment radius (the largest of the three), the pointer inactive, no
    acceleration pending and a speed within [maxSpeed] keeps its velocity
    through the frame, and moves by exactly that velocity, wrapped at the
    box. *)
Theorem free_flight (this : nat) (s : Swarm) (mp : Vector3) :
  (this < List.length s)%nat ->
  isolated CONFIG.alignmentRadius this s ->
  acceleration (nth this s dummy) = zero ->
  length (velocity (nth this s dummy)) <= CONFIG.maxSpeed ->
  let b := nth this s dummy in
  let b' := exec (update true) (nth this (exec (flock this mp false true) s) dummy) in
  velocity b' = velocity b /\
  position b' =
    Vector3.mk (wrapAxis CONFIG.boundarySize (x (position b) + x (velocity b)))
               (wrapAxis CONFIG.boundarySize (y (position b) + y (velocity b)))
               (wrapAxis CONFIG.boundarySize (z (position b) + z (velocity b))).
Proof.
  intros Hthis Hiso Hacc Hv. cbv zeta.
  destruct (isolated_forces this s Hiso) as (Hs & Ha & Hc).
  assert (E : nth this (exec (flock this mp false true) s) dummy =
              exec (flockOnThis zero zero zero mp false true) (nth this s dummy)).
  { unfold exec at 1. rewrite flock_run. cbn [snd].
    rewrite nth_updAt_eq by exact Hthis. rewrite Hs, Ha, Hc. reflexivity. }
  rewrite E.
  destruct (flockOnThis_scattered zero zero zero mp false (nth this s dummy))
    as (Hp1 & Hv1 & _ & Ha1).
  set (b1 := exec (flockOnThis zero zero zero mp false true) (nth this s dummy)) in *.
  cbv zeta in Ha1. rewrite Hacc, !add_zero_r in Ha1.
  assert (Hvel : velocity (exec (update true) b1) = velocity (nth this s dummy)).
  { change (velocity (exec (update true) b1))
      with (clampLength (add (velocity b1) (acceleration b1)) 0 CONFIG.maxSpeed).
    rewrite Ha1, add_zero_r, Hv1. apply clampLength_small. exact Hv. }
  split; [ exact Hvel | ].
  rewrite update_position, Hvel, Hp1. reflexivity.
Qed.

Lemma mouseRepel_length (mp : Vector3) (b : Boid) :
  0 < distanceTo (position b) mp < CONFIG.mouseRepelRadius ->
  length (eval (mouseRepel mp) b) =
  Rmin (CONFIG.mouseRepelStrength *
        (1 - distanceTo (position b) mp / CONFIG.mouseRepelRadius))
       (CONFIG.maxForce * 4).
Proof.
  intros Hd.
  assert (Hu : length (normalize (subVectors (position b) mp)) = 1).
  { apply length_normalize. rewrite length_subVectors. lra. }
  assert (Hk : 0 < CONFIG.mouseRepelStrength *
                   (1 - distanceTo (position b) mp / CONFIG.mouseRepelRadius)).
  { unfold CONFIG.mouseRepelStrength, CONFIG.mouseRepelRadius in *. lra. }
  assert (Hmx : 0 <= CONFIG.maxForce * 4) by (unfold CONFIG.maxForce; lra).
  unfold eval. rewrite mouseRepel_near by exact Hd. cbn [fst].
  rewrite clampLength_scaled_unit by assumption.
  rewrite length_multiplyScalar, Hu.
  rewrite Rabs_right; [ ring | ].
  apply Rle_ge. apply Rmin_glb; lra.
Qed.

(** X6.  The mouse repulsion is saturated over most of its radius: up to
    a distance of 140/3 (about 46.7 of the 50) its magnitude is exactly
    [4 * maxForce]; only in the outer band does it fall off linearly, as
    [mouseRepelStrength * (1 - d / mouseRepelRadius)]. *)
Theorem mouseRepel_saturates (mp : Vector3) (b : Boid) :
  let d := distanceTo (position b) mp in
  (0 < d <= 140 / 3 ->
     length (eval (mouseRepel mp) b) = 4 * CONFIG.maxForce) /\
  (140 / 3 <= d < CONFIG.mouseRepelRadius ->
     length (eval (mouseRepel mp) b) =
     CONFIG.mouseRepelStrength * (1 - d / CONFIG.mouseRepelRadius)).
Proof.
  cbv zeta. split; intros Hd.
  - rewrite mouseRepel_length by (unfold CONFIG.mouseRepelRadius; lra).
    unfold CONFIG.mouseRepelStrength, CONFIG.mouseRepelRadius, CONFIG.maxForce in *.
    rewrite Rmin_right by lra. lra.
  - rewrite mouseRepel_length by (unfold CONFIG.mouseRepelRadius in *; lra).
    unfold CONFIG.mouseRepelStrength, CONFIG.mouseRepelRadius, CONFIG.maxForce in *.
    rewrite Rmin_left by lra. reflexivity.
Qed.

(** X7.  In formed mode the speed limit is far below [maxSpeed]: a boid
    that enters the frame with no acceleration pending leaves it with a
    speed of at most [4 * maxForce], the most the mouse repulsion can add
    to the zeroed velocity, and with no speed at all when the pointer is
    inactive. *)
Theorem formed_speed_bound (sep ali coh mp : Vector3) (active : bool) (b : Boid) :
  acceleration b = zero ->
  let b' := frameOf sep ali coh mp active false b in
  length (velocity b') <= 4 * CONFIG.maxForce /\
  (active = false -> velocity b' = zero).
Proof.
  intros Hacc. cbv zeta. unfold frameOf.
  destruct (flockOnThis_formed sep ali coh mp active b) as (_ & Hv & _ & Ha).
  set (b1 := exec (flockOnThis sep ali coh mp active false) b) in *.
  cbv zeta in Ha. rewrite Hacc in Ha.
  set (vc := clampLength (add (velocity b1) (acceleration b1)) 0 CONFIG.maxSpeed).
  assert (Hvc : length vc <= 4 * CONFIG.maxForce /\ (active = false -> vc = zero)).
  { unfold vc. rewrite Hv, add_zero_l, Ha. destruct active.
    - split; [ | discriminate ].
      rewrite add_zero_l, length_clampLength by apply maxSpeed_nonneg.
      eapply Rle_trans; [ apply Rmin_r | apply mouseRepel_bound ].
    - rewrite clampLength_zero, length_zero. split; [ | reflexivity ].
      unfold CONFIG.maxForce. lra. }
  destruct Hvc as (Hlen & Hz). pose proof (length_nonneg vc) as Hp.
  destruct (update_velocity false b1) as [E | [E | E]]; fold vc in E; rewrite E.
  - split; assumption.
  - split.
    + rewrite length_multiplyScalar, Rabs_right by lra. nra.
    + intros Hf. rewrite (Hz Hf). apply multiplyScalar_zero.
  - split.
    + rewrite length_multiplyScalar, Rabs_right by lra. nra.
    + intros Hf. rewrite (Hz Hf). apply multiplyScalar_zero.
Qed.

(** X8.  A new boid starts at its home position with nothing pending
    and at half of [maxSpeed] exactly, unless the three random draws are
    all 0.5 and leave no direction: then it starts at rest (the
    normalisation does not divide by zero). *)
Theorem constructor_speed (home : Vector3) (rx ry rz : R) :
  let b := constructor home rx ry rz in
  position b = home /\ homePosition b = home /\
  acceleration b = zero /\ isNearMouse b = false /\
  (~ (rx = 0.5 /\ ry = 0.5 /\ rz = 0.5) ->
     length (velocity b) = CONFIG.maxSpeed * 0.5) /\
  (rx = 0.5 /\ ry = 0.5 /\ rz = 0.5 -> velocity b = zero).
Proof.
  cbv zeta. repeat (split; [ reflexivity | ]).
  change (velocity (constructor home rx ry rz))
    with (multiplyScalar
            (normalize (Vector3.mk ((rx - 0.5) * 2) ((ry - 0.5) * 2) ((rz - 0.5) * 2)))
            (CONFIG.maxSpeed * 0.5)).
  split.
  - intros Hne. rewrite length_multiplyScalar, length_normalize.
    + unfold CONFIG.maxSpeed. rewrite Rabs_right by lra. ring.
    + intros E. apply length_eq_0 in E. apply Hne. unfold zero in E.
      injection E as Ex Ey Ez. repeat split; lra.
  - intros (-> & -> & ->).
    unfold normalize, divideScalar, multiplyScalar, zero; simpl. f_equal; ring.
Qed.

Lemma wrapAxis_idempotent (c : R) :
  wrapAxis CONFIG.boundarySize (wrapAxis CONFIG.boundarySize c) =
  wrapAxis CONFIG.boundarySize c.
Proof. apply wrapAxis_inside. apply wrapAxis_range. Qed.

(** X9.  Whatever position a boid has, however far outside, [wrapEdges]
    leaves it inside the box on every axis (it snaps to a face, it does
    not reduce modulo the box), and wrapping a second time changes
    nothing; so does [update], which ends the move with the wrap. *)
Theorem wrapEdges_lands_in_box (scattered : bool) (b : Boid) :
  inBox CONFIG.boundarySize (position (exec wrapEdges b)) /\
  exec wrapEdges (exec wrapEdges b) = exec wrapEdges b /\
  inBox CONFIG.boundarySize (position (exec (update scattered) b)) /\
  exec wrapEdges (exec (update scattered) b) = exec (update scattered) b.
Proof.
  assert (Hidem : forall b0, inBox CONFIG.boundarySize (position b0) ->
                             exec wrapEdges b0 = b0).
  { intros [[px py pz] v a h f] (Hx & Hy & Hz). simpl in *.
    unfold exec, wrapEdges, modify, setPosition; simpl.
    rewrite !wrapAxis_inside by assumption. reflexivity. }
  assert (Hbox : forall b0, inBox CONFIG.boundarySize (position (exec wrapEdges b0))).
  { intros b0. unfold exec, wrapEdges, modify, inBox; simpl.
    repeat split; apply wrapAxis_range. }
  split; [ apply Hbox | ]. split; [ apply Hidem, Hbox | ].
  split; [ apply update_inBox | apply Hidem, update_inBox ].
Qed.

End Consequences.

(** ** Seeking *)

Section Seeking.
Import Vector3 Boid.

Lemma subVectors_zero_r (v : Vector3) : subVectors v zero = v.
Proof. destruct v; unfold subVectors, zero; simpl. f_equal; ring. Qed.

Lemma subVectors_zero_l (v : Vector3) : subVectors zero v = negate v.
Proof. unfold subVectors, negate, multiplyScalar, zero; simpl. f_equal; ring. Qed.

Lemma subVectors_self (v : Vector3) : subVectors v v = zero.
Proof. unfold subVectors, zero. f_equal; ring. Qed.

Lemma normalize_zero : normalize zero = zero.
Proof. unfold normalize, divideScalar. apply multiplyScalar_zero. Qed.

(** X10.  [seek] never returns more than [maxForce], and [seekHome] never
    more than [homeAttractionStrength * maxForce].  A boid at rest seeks a
    target it is not standing on with exactly [maxForce], straight towards
    it.  A boid standing on the target (no direction to normalise) gets
    the clamped opposite of its velocity: it brakes. *)
Theorem seek_spec (target : Vector3) (b : Boid) :
  length (eval (seek target) b) <= CONFIG.maxForce /\
  length (eval seekHome b) <= CONFIG.homeAttractionStrength * CONFIG.maxForce /\
  (velocity b = zero -> 0 < distanceTo target (position b) ->
     eval (seek target) b =
       multiplyScalar (normalize (subVectors target (position b))) CONFIG.maxForce /\
     length (eval (seek target) b) = CONFIG.maxForce) /\
  (target = position b ->
     eval (seek target) b = clampLength (negate (velocity b)) 0 CONFIG.maxForce).
Proof.
  assert (Hb : forall t, length (eval (seek t) b) <= CONFIG.maxForce).
  { intros t. unfold eval. rewrite seek_run. cbn [fst].
    apply length_clampLength_le. apply maxForce_nonneg. }
  split; [ apply Hb | ]. split; [ | split ].
  - change (eval seekHome b)
      with (multiplyScalar (eval (seek (homePosition b)) b) CONFIG.homeAttractionStrength).
    rewrite length_multiplyScalar. specialize (Hb (homePosition b)).
    unfold CONFIG.homeAttractionStrength in *. rewrite Rabs_right by lra.
    pose proof (length_nonneg (eval (seek (homePosition b)) b)). nra.
  - intros Hv Hd.
    assert (Hu : length (normalize (subVectors target (position b))) = 1).
    { apply length_normalize. rewrite length_subVectors. lra. }
    assert (E : eval (seek target) b =
                multiplyScalar (normalize (subVectors target (position b)))
                               CONFIG.maxForce).
    { unfold eval. rewrite seek_run. cbn [fst]. rewrite Hv, subVectors_zero_r.
      rewrite clampLength_scaled_unit;
        [ | exact Hu | unfold CONFIG.maxSpeed; lra | apply maxForce_nonneg ].
      unfold CONFIG.maxSpeed, CONFIG.maxForce. rewrite Rmin_right by lra. reflexivity. }
    split; [ exact E | ].
    rewrite E, length_multiplyScalar, Hu. unfold CONFIG.maxForce.
    rewrite Rabs_right by lra. ring.
  - intros ->. unfold eval. rewrite seek_run. cbn [fst].
    rewrite subVectors_self, normalize_zero, multiplyScalar_zero, subVectors_zero_l.
    reflexivity.
Qed.

End Seeking.

(** ** The glow *)

Section Glow.
Import Vector3 Boid.

Lemma glow_range (speed : R) (nearMouse : bool) (i : R) :
  0 <= speed <= CONFIG.maxSpeed -> 0.1 <= i <= 0.8 ->
  0.1 <= glow speed nearMouse i <= 0.8.
Proof.
  unfold glow, mapLinear, lerpNumber, CONFIG.maxSpeed. intros Hs Hi.
  destruct nearMouse; lra.
Qed.

(** X11.  The emissive intensity of a boid's material, created at 0.1,
    stays between 0.1 and 0.8 through every [update], in either mode and
    whatever the boid's state: the speed that sets its resting level has
    just been clamped to [maxSpeed].  While the boid is near the pointer
    the gap to 0.8 shrinks by the factor 0.85 per frame; otherwise the
    intensity moves 8% of the way to its resting level, which lies
    between 0.1 and 0.4. *)
Theorem glow_stays_in_range (scattered : bool) (b : Boid) (i : R) :
  0.1 <= i <= 0.8 ->
  0.1 <= updateGlow scattered b i <= 0.8 /\
  (isNearMouse b = true -> 0.8 - updateGlow scattered b i = 0.85 * (0.8 - i)) /\
  (isNearMouse b = false ->
     exists base, 0.1 <= base <= 0.4 /\
       updateGlow scattered b i - i = 0.08 * (base - i)).
Proof.
  intros Hi.
  pose proof (update_velocity_bound scattered b) as Hv.
  pose proof (length_nonneg (velocity (exec (update scattered) b))) as Hp.
  split; [ apply glow_range; [ split; assumption | exact Hi ] | ].
  unfold updateGlow, glow, lerpNumber. split; intros Hf; rewrite Hf.
  - lra.
  - exists (mapLinear (length (velocity (exec (update scattered) b)))
                      0 CONFIG.maxSpeed 0.1 0.4).
    unfold mapLinear, CONFIG.maxSpeed in *. split; lra.
Qed.

End Glow.

(** ** The text position generator *)

Section RandomDraws.

Lemma floorIndex_lt (r : R) (n : nat) :
  0 <= r < 1 -> (0 < n)%nat -> (floorIndex (r * INR n) < n)%nat.
Proof.
  intros Hr Hn. unfold floorIndex.
  assert (Hpos : 0 < INR n) by (apply lt_0_INR; exact Hn).
  destruct (base_Int_part (r * INR n)) as [Hle Hgt].
  assert (Hlt : IZR (Int_part (r * INR n)) < IZR (Z.of_nat n)).
  { rewrite <- INR_IZR_INZ. nra. }
  apply lt_IZR in Hlt.
  assert (Hge : (0 <= Int_part (r * INR n))%Z).
  { apply le_IZR. assert (0 <= r * INR n) by nra.
    assert (-1 < IZR (Int_part (r * INR n))) by lra.
    assert (Hz : (-1 < Int_part (r * INR n))%Z) by (apply lt_IZR; exact H0).
    apply IZR_le. lia. }
  lia.
Qed.

Lemma floorIndex_zero (r : R) : floorIndex (r * INR 0) = O.
Proof.
  unfold floorIndex. replace (r * INR 0) with (INR 0) by (simpl; ring).
  rewrite Int_part_INR. reflexivity.
Qed.

Lemma fair_tail (g : Rng) : fair g -> fair (fun n => g (S n)).
Proof. intros H n. apply H. Qed.

Lemma forOf_both {S A : Type} (Q : A -> S -> Prop) (idx : list nat)
    (body : nat -> A -> State S A) :
  (forall i a s, In i idx -> Q a s -> Q (fst (body i a s)) (snd (body i a s))) ->
  forall acc s, Q acc s ->
    Q (fst (forOf idx body acc s)) (snd (forOf idx body acc s)).
Proof.
  induction idx as [ | i rest IH]; intros Hb acc s Hq; simpl.
  - exact Hq.
  - unfold bind. pose proof (Hb i acc s (or_introl eq_refl) Hq) as H1.
    destruct (body i acc s) as [a s1]. simpl in H1.
    apply IH; [ | exact H1 ]. intros j a' s' Hj. apply Hb. right. exact Hj.
Qed.

Lemma forOf_length {S B : Type} (f : nat -> nat) (idx : list nat)
    (body : nat -> list B -> State S (list B)) :
  (forall i a s, List.length (fst (body i a s)) = (List.length a + f i)%nat) ->
  forall acc s,
    List.length (fst (forOf idx body acc s)) =
    (List.length acc + list_sum (map f idx))%nat.
Proof.
  intros Hb. induction idx as [ | i rest IH]; intros acc s; simpl.
  - lia.
  - unfold bind. pose proof (Hb i acc s) as H1.
    destruct (body i acc s) as [a s1]. simpl in H1.
    rewrite IH, H1. lia.
Qed.

End RandomDraws.

Section Swap.

Lemma updAt_comm {A : Type} (i j : nat) (f g : A -> A) (l : list A) :
  i <> j -> updAt i f (updAt j g l) = updAt j g (updAt i f l).
Proof.
  revert i j. induction l as [ | a r IH]; intros [ | i] [ | j] H; simpl; auto;
    try congruence.
  f_equal. apply IH. congruence.
Qed.

Lemma exchange_head {A : Type} (r : list A) (j : nat) (a b : A) :
  nth_error r j = Some b ->
  Permutation (b :: updAt j (fun _ => a) r) (a :: r).
Proof.
  revert j. induction r as [ | c r IH]; intros [ | j] H; simpl in *; try discriminate.
  - injection H as ->. apply perm_swap.
  - eapply perm_trans; [ apply perm_swap | ].
    eapply perm_trans; [ apply perm_skip, IH, H | ]. apply perm_swap.
Qed.

Lemma exchange {A : Type} (l : list A) (i j : nat) (a b : A) :
  (i < j)%nat -> nth_error l i = Some a -> nth_error l j = Some b ->
  Permutation (updAt j (fun _ => a) (updAt i (fun _ => b) l)) l.
Proof.
  revert i j. induction l as [ | c r IH]; intros [ | i] [ | j] Hlt Hi Hj;
    simpl in *; try discriminate; try lia.
  - injection Hi as ->. apply exchange_head. exact Hj.
  - apply perm_skip. apply (IH i j); [ lia | assumption | assumption ].
Qed.

Lemma swap_length (i j : nat) (l : list Vector3) :
  List.length (swap i j l) = List.length l.
Proof. unfold swap. rewrite !length_updAt. reflexivity. Qed.

Lemma swap_permutation (i j : nat) (l : list Vector3) :
  (i < List.length l)%nat -> (j < List.length l)%nat ->
  Permutation (swap i j l) l.
Proof.
  intros Hi Hj. unfold swap.
  pose proof (nth_error_nth' l Vector3.zero Hi) as Ei.
  pose proof (nth_error_nth' l Vector3.zero Hj) as Ej.
  destruct (Nat.lt_trichotomy i j) as [H | [H | H]].
  - apply exchange; assumption.
  - subst j.
    rewrite (updAt_same i l Vector3.zero).
    rewrite (updAt_same i l Vector3.zero). apply Permutation_refl.
  - rewrite <- updAt_comm by lia. apply exchange; assumption.
Qed.

End Swap.

Section Generator.
Import Vector3.

Lemma evens_bound (n v : nat) : In v (evens n) -> (v <= 2 * n - 2)%nat.
Proof.
  unfold evens. rewrite in_map_iff. intros (k & <- & Hk). apply in_seq in Hk. lia.
Qed.

Lemma INR_le_const (v : nat) (c : Z) :
  (Z.of_nat v <= c)%Z -> 0 <= INR v <= IZR c.
Proof.
  intros H. split; [ apply pos_INR | ].
  rewrite INR_IZR_INZ. apply IZR_le. exact H.
Qed.

(** What the sampling loops keep true of the list and of the random
    source. *)
Lemma samplePixels_run (data : nat -> Z) (g : Rng) :
  fair g ->
  Forall inSampleRange (eval (samplePixels data) g) /\
  fair (exec (samplePixels data) g).
Proof.
  intros Hg. unfold eval, exec, samplePixels.
  apply (forOf_both (fun acc s => Forall inSampleRange acc /\ fair s));
    [ | split; [ constructor | exact Hg ] ].
  intros y acc s Hy Hq.
  apply (forOf_both (fun acc s => Forall inSampleRange acc /\ fair s));
    [ | exact Hq ].
  intros x acc' s' Hx (Hall & Hs). cbv zeta.
  destruct (128 <? data ((y * 400 + x) * 4)%nat)%Z; [ | split; assumption ].
  unfold bind, random, ret; simpl. split; [ | apply fair_tail; exact Hs ].
  apply Forall_app. split; [ exact Hall | ]. constructor; [ | constructor ].
  apply evens_bound in Hy. apply evens_bound in Hx.
  destruct (INR_le_const x 398) as [Hx0 Hx1]; [ lia | ].
  destruct (INR_le_const y 98) as [Hy0 Hy1]; [ lia | ].
  pose proof (Hs O) as Hr.
  unfold inSampleRange; simpl. repeat split; lra.
Qed.

Lemma samplePixels_length (data : nat -> Z) (g : Rng) :
  List.length (eval (samplePixels data) g) = litCount data.
Proof.
  unfold eval, samplePixels, litCount.
  rewrite (forOf_length
             (fun y => list_sum (map (fun x =>
                if (128 <? data ((y * 400 + x) * 4)%nat)%Z then 1%nat else 0%nat)
                (evens 200)))).
  - reflexivity.
  - intros y acc s.
    apply (forOf_length
             (fun x => if (128 <? data ((y * 400 + x) * 4)%nat)%Z then 1%nat else 0%nat)).
    intros x acc' s'. cbv zeta.
    destruct (128 <? data ((y * 400 + x) * 4)%nat)%Z; simpl.
    + rewrite length_app. simpl. reflexivity.
    + lia.
Qed.

Lemma shuffle_run (l : list Vector3) (g : Rng) :
  fair g ->
  Permutation (eval (shuffle l) g) l /\ fair (exec (shuffle l) g).
Proof.
  intros Hg. unfold eval, exec, shuffle.
  apply (forOf_both (fun acc s => Permutation acc l /\ fair s));
    [ | split; [ apply Permutation_refl | exact Hg ] ].
  intros i acc s Hi (Hp & Hs).
  apply in_rev, in_seq in Hi.
  unfold bind, random, ret; simpl. split; [ | apply fair_tail; exact Hs ].
  pose proof (Permutation_length Hp) as Hlen.
  eapply perm_trans; [ | exact Hp ].
  apply swap_permutation; [ lia | ].
  pose proof (floorIndex_lt (s O) (i + 1) (Hs O)) as Hj. lia.
Qed.

(** The padding loop when there is something to copy. *)
Lemma padLoop_run (fuel numPoints : nat) :
  forall (l : list Vector3) (g : Rng),
    fair g -> l <> [] -> (numPoints - List.length l <= fuel)%nat ->
    exists ext,
      eval (padLoop fuel numPoints l) g = Normal (l ++ ext) /\
      List.length (l ++ ext) = Nat.max (List.length l) numPoints.
Proof.
  induction fuel as [ | fuel IH]; intros l g Hg Hne Hfuel.
  - exists []. unfold eval. simpl.
    destruct (Nat.ltb_spec (List.length l) numPoints); [ lia | ].
    rewrite app_nil_r. split; [ reflexivity | lia ].
  - unfold eval. simpl.
    destruct (Nat.ltb_spec (List.length l) numPoints) as [Hlt | Hge].
    + unfold bind at 1. unfold random at 1.
      assert (Hidx : (floorIndex (g O * INR (List.length l)) < List.length l)%nat).
      { apply floorIndex_lt; [ apply Hg | ].
        destruct l; [ contradiction | simpl; lia ]. }
      destruct (nth_error l (floorIndex (g O * INR (List.length l)))) as [p | ] eqn:E;
        [ | apply nth_error_None in E; lia ].
      unfold bind, random.
      set (pos := Vector3.mk (x p + (g 1%nat - 0.5) * 5) (y p + (g 2%nat - 0.5) * 5)
                             (z p + (g 3%nat - 0.5) * 10)).
      destruct (IH (l ++ [pos]) (fun n => g (S (S (S (S n))))))
        as (ext & Hev & Hlen).
      * intros n. apply Hg.
      * destruct l; discriminate.
      * rewrite length_app. simpl. lia.
      * exists (pos :: ext). unfold eval in Hev.
        rewrite <- app_assoc in Hev, Hlen. simpl in Hev, Hlen.
        split; [ exact Hev | ].
        rewrite Hlen, length_app. simpl. lia.
    + exists []. rewrite app_nil_r. split; [ reflexivity | lia ].
Qed.

Lemma padLoop_enough (fuel numPoints : nat) (l : list Vector3) (g : Rng) :
  (numPoints <= List.length l)%nat ->
  padLoop fuel numPoints l g = (Normal l, g).
Proof.
  intros H. destruct fuel; simpl;
    destruct (Nat.ltb_spec (List.length l) numPoints); try lia; reflexivity.
Qed.

Lemma padLoop_empty (fuel numPoints : nat) (g : Rng) :
  (0 < numPoints)%nat ->
  eval (padLoop (S fuel) numPoints []) g = Throw.
Proof.
  intros H. unfold eval. simpl.
  destruct (Nat.ltb_spec 0 numPoints); [ | lia ].
  unfold bind, random. change (INR 0) with (INR (@List.length Vector3 [])).
  simpl List.length. rewrite floorIndex_zero. reflexivity.
Qed.

Lemma generate_run (data : nat -> Z) (numPoints fuel : nat) (g : Rng) :
  eval (generateTextPositions data numPoints fuel) g =
  let sampled := eval (samplePixels data) g in
  let g1 := exec (samplePixels data) g in
  let shuffled := eval (shuffle sampled) g1 in
  let g2 := exec (shuffle sampled) g1 in
  match eval (padLoop fuel numPoints shuffled) g2 with
  | Normal positions => Normal (firstn numPoints positions)
  | Throw => Throw
  | OutOfFuel => OutOfFuel
  end.
Proof.
  cbv zeta. unfold eval at 1. unfold generateTextPositions, bind. cbv beta.
  rewrite (run_split (samplePixels data) g).
  rewrite (run_split (shuffle (eval (samplePixels data) g)) (exec (samplePixels data) g)).
  rewrite (run_split (padLoop fuel numPoints
                        (eval (shuffle (eval (samplePixels data) g))
                              (exec (samplePixels data) g)))
                     (exec (shuffle (eval (samplePixels data) g))
                           (exec (samplePixels data) g))).
  destruct (eval (padLoop fuel numPoints _) _); reflexivity.
Qed.

End Generator.

Section GeneratorProperties.
Import Vector3.

(** X12.  The Fisher-Yates loop only reorders: with draws in [[0, 1)] the
    shuffled array is a permutation of the array it was given (no
    position is lost, none is duplicated), whatever the draws are. *)
Theorem shuffle_permutes (l : list Vector3) (g : Rng) :
  fair g ->
  Permutation (eval (shuffle l) g) l /\
  List.length (eval (shuffle l) g) = List.length l /\
  (forall p, In p (eval (shuffle l) g) <-> In p l).
Proof.
  intros Hg. destruct (shuffle_run l g Hg) as (Hperm & _).
  split; [ exact Hperm | ]. split.
  - apply Permutation_length. exact Hperm.
  - intros p. split; intros Hp.
    + apply (Permutation_in p Hperm). exact Hp.
    + apply (Permutation_in p (Permutation_sym Hperm)). exact Hp.
Qed.

(** X13.  When at least one sampled pixel of the text is lit,
    [generateTextPositions] returns (the padding loop ends within
    [numPoints] iterations and never reads past the array) and returns
    exactly [numPoints] positions.  When the lit pixels are at most
    [numPoints], all of them are kept: the result is the sampled
    positions in shuffled order, followed by the padding. *)
Theorem generate_returns_numPoints (data : nat -> Z) (numPoints fuel : nat) (g : Rng) :
  fair g -> (0 < litCount data)%nat -> (numPoints <= fuel)%nat ->
  exists l,
    eval (generateTextPositions data numPoints fuel) g = Normal l /\
    List.length l = numPoints /\
    ((litCount data <= numPoints)%nat ->
       exists shuffled ext,
         l = shuffled ++ ext /\
         Permutation shuffled (eval (samplePixels data) g)).
Proof.
  intros Hg Hlit Hfuel. rewrite generate_run. cbv zeta.
  destruct (samplePixels_run data g Hg) as (_ & Hg1).
  pose proof (samplePixels_length data g) as Hlen.
  set (sampled := eval (samplePixels data) g) in *.
  set (g1 := exec (samplePixels data) g) in *.
  destruct (shuffle_run sampled g1 Hg1) as (Hperm & Hg2).
  set (shuffled := eval (shuffle sampled) g1) in *.
  set (g2 := exec (shuffle sampled) g1) in *.
  pose proof (Permutation_length Hperm) as Hlen2.
  destruct (padLoop_run fuel numPoints shuffled g2 Hg2) as (ext & Hev & Hl).
  { intros E. rewrite E in Hlen2. simpl in Hlen2. lia. }
  { lia. }
  rewrite Hev. exists (firstn numPoints (shuffled ++ ext)).
  split; [ reflexivity | ]. split.
  - rewrite length_firstn, Hl. lia.
  - intros Hle. exists shuffled, ext. split; [ | exact Hperm ].
    apply firstn_all2. rewrite Hl. lia.
Qed.

(** X14.  When no sampled pixel is lit there is nothing to copy: asked
    for at least one point, [generateTextPositions] throws on its first
    pass through the padding loop (it calls [clone] on the missing element
    0), whatever the random draws.  Asked for zero points it returns the
    empty array, whatever the pixels. *)
Theorem generate_without_pixels (data : nat -> Z) (numPoints fuel : nat) (g : Rng) :
  (litCount data = 0%nat -> (0 < numPoints)%nat ->
     eval (generateTextPositions data numPoints (S fuel)) g = Throw) /\
  eval (generateTextPositions data 0 fuel) g = Normal [].
Proof.
  split.
  - intros Hlit Hn. rewrite generate_run. cbv zeta.
    pose proof (samplePixels_length data g) as Hlen. rewrite Hlit in Hlen.
    destruct (eval (samplePixels data) g) as [ | p r]; [ | discriminate ].
    change (eval (shuffle []) (exec (samplePixels data) g)) with (@nil Vector3).
    rewrite padLoop_empty by exact Hn. reflexivity.
  - rewrite generate_run. cbv zeta. unfold eval at 1.
    rewrite padLoop_enough by lia. reflexivity.
Qed.

Lemma inSampleRange_inBox (p : Vector3) :
  inSampleRange p -> inBox CONFIG.boundarySize p.
Proof.
  unfold inSampleRange, inBox, CONFIG.boundarySize.
  intros (? & ? & ?). repeat split; lra.
Qed.

(** X15.  When the text lights at least [numPoints] sampled pixels there
    is no padding: the result is [numPoints] of the sampled positions,
    each with x in [[-300, 297]], y in [[-72, 75]] and z in [[-15, 15]],
    hence inside the wrap box; no fuel is needed. *)
Theorem generate_inside_box (data : nat -> Z) (numPoints fuel : nat) (g : Rng) :
  fair g -> (numPoints <= litCount data)%nat ->
  exists l,
    eval (generateTextPositions data numPoints fuel) g = Normal l /\
    List.length l = numPoints /\
    Forall inSampleRange l /\
    Forall (inBox CONFIG.boundarySize) l /\
    (forall p, In p l -> In p (eval (samplePixels data) g)).
Proof.
  intros Hg Hn. rewrite generate_run. cbv zeta.
  destruct (samplePixels_run data g Hg) as (Hall & Hg1).
  pose proof (samplePixels_length data g) as Hlen.
  set (sampled := eval (samplePixels data) g) in *.
  set (g1 := exec (samplePixels data) g) in *.
  destruct (shuffle_run sampled g1 Hg1) as (Hperm & _).
  set (shuffled := eval (shuffle sampled) g1) in *.
  pose proof (Permutation_length Hperm) as Hlen2.
  unfold eval at 1. rewrite padLoop_enough by lia. cbn [fst].
  exists (firstn numPoints shuffled).
  assert (Hin : forall p, In p (firstn numPoints shuffled) -> In p sampled).
  { intros p Hp. apply (Permutation_in p Hperm).
    rewrite <- (firstn_skipn numPoints shuffled). apply in_or_app. left. exact Hp. }
  assert (Hrange : Forall inSampleRange (firstn numPoints shuffled)).
  { apply Forall_forall. intros p Hp. rewrite Forall_forall in Hall.
    apply Hall, Hin, Hp. }
  split; [ reflexivity | ]. split; [ rewrite length_firstn; lia | ].
  split; [ exact Hrange | ]. split; [ | exact Hin ].
  revert Hrange. apply Forall_impl. apply inSampleRange_inBox.
Qed.

End GeneratorProperties.

(** ** Settled from the start *)

Section SettledRuns.
Import Vector3 Boid.

Lemma run_reachable (inputs : list (Vector3 * bool)) (w : World) :
  Reachable w -> Reachable (run inputs w).
Proof.
  revert w. induction inputs as [ | input rest IH]; intros w Hw; simpl.
  - exact Hw.
  - apply IH. unfold frame. apply Reachable_frame, Reachable_pointer. exact Hw.
Qed.

(** X16.  When every text position lies inside the wrap box, every boid
    is settled (position and home inside the box, nothing pending) at
    every frame boundary, from [init] on and whatever the pointer does:
    the formed-mode lerp then never triggers the wrap. *)
Theorem settled_forever (homes : list (Vector3 * (R * R * R)))
    (inputs : list (Vector3 * bool)) :
  Forall (fun h => inBox CONFIG.boundarySize (fst h)) homes ->
  Forall settled (boids (run inputs (init homes))).
Proof.
  intros Hhomes.
  pose proof (reachable_settled _ (run_reachable inputs _ (Reachable_init homes))) as Hr.
  assert (Hh : map homePosition (boids (run inputs (init homes))) = map fst homes).
  { rewrite run_homes. unfold init; simpl. rewrite map_map.
    apply map_ext. intros [home [[rx ry] rz]]. reflexivity. }
  rewrite Forall_forall in Hr. apply Forall_forall. intros b Hb.
  destruct (Hr b Hb) as (Ha & Hp).
  assert (Hbox : inBox CONFIG.boundarySize (homePosition b)).
  { assert (Hin : In (homePosition b) (map fst homes)).
    { rewrite <- Hh. apply in_map. exact Hb. }
    apply in_map_iff in Hin. destruct Hin as (h & Hfst & Hin).
    rewrite Forall_forall in Hhomes. rewrite <- Hfst. apply Hhomes. exact Hin. }
  unfold settled. split; [ | split; [ exact Hbox | exact Ha ] ].
  destruct Hp as [Hp | Hp]; [ exact Hp | rewrite Hp; exact Hbox ].
Qed.

End SettledRuns.

(** ** The further properties at concrete inputs *)

Section MoreWitnesses.
Import Vector3 Boid.

(** X2 one frame after [init] with a single boid. *)
Lemma frame_boundary_state_witness :
  Reachable (animate (init [(zero, (1, 0.5, 0.5))])) /\
  Forall (fun b => acceleration b = zero /\ isNearMouse b = false /\
                   (inBox CONFIG.boundarySize (position b) \/
                    position b = homePosition b))
         (boids (animate (init [(zero, (1, 0.5, 0.5))]))).
Proof.
  assert (H : Reachable (animate (init [(zero, (1, 0.5, 0.5))])))
    by (apply Reachable_frame, Reachable_init).
  split; [ exact H | exact (frame_boundary_state _ H) ].
Defined.

(** X3 one frame after [init] with a single boid. *)
Lemma timer_in_range_witness :
  Reachable firstFrame /\
  (0 <= scatterTimer firstFrame < SCATTER_DURATION)%Z.
Proof.
  assert (H : Reachable firstFrame)
    by (apply Reachable_frame, Reachable_init).
  split; [ exact H | exact (proj1 (timer_in_range _ H)) ].
Defined.

(** X4 at two boids at rest one unit apart. *)
Lemma separation_antisymmetric_witness :
  velocity (still (Vector3.mk 1 0 0)) = negate (velocity (still (Vector3.mk 0 0 0))) /\
  eval (separation 1) pairSwarm = negate (eval (separation 0) pairSwarm).
Proof.
  assert (H : velocity (still (Vector3.mk 1 0 0)) =
              negate (velocity (still (Vector3.mk 0 0 0))))
    by (symmetry; apply negate_zero).
  split; [ exact H | ].
  exact (separation_antisymmetric (still (Vector3.mk 0 0 0)) (still (Vector3.mk 1 0 0)) H).
Defined.

(** X5 at a lone boid flying along the x axis. *)
Lemma free_flight_witness :
  isolated CONFIG.alignmentRadius 0 [flyingBoid] /\
  length (velocity flyingBoid) <= CONFIG.maxSpeed /\
  velocity (exec (update true)
              (nth 0 (exec (flock 0 zero false true) [flyingBoid]) dummy)) =
  velocity flyingBoid.
Proof.
  assert (H1 : (0 < List.length [flyingBoid])%nat) by (simpl; lia).
  assert (H2 : isolated CONFIG.alignmentRadius 0 [flyingBoid]).
  { intros other Hlt Hne. simpl in Hlt. lia. }
  assert (H3 : acceleration (nth 0 [flyingBoid] dummy) = zero) by reflexivity.
  assert (H4 : length (velocity (nth 0 [flyingBoid] dummy)) <= CONFIG.maxSpeed).
  { cbn [nth flyingBoid velocity]. rewrite (length_of 1 0 0 1) by lra.
    unfold CONFIG.maxSpeed. lra. }
  split; [ exact H2 | ]. split; [ exact H4 | ].
  exact (proj1 (free_flight 0 [flyingBoid] zero H1 H2 H3 H4)).
Defined.

(** X6 at a boid one unit from the pointer. *)
Lemma mouseRepel_saturates_witness :
  0 < distanceTo (position (still (Vector3.mk 1 0 0))) (Vector3.mk 0 0 0) <= 140 / 3 /\
  length (eval (mouseRepel (Vector3.mk 0 0 0)) (still (Vector3.mk 1 0 0))) =
  4 * CONFIG.maxForce.
Proof.
  assert (Hd : distanceTo (position (still (Vector3.mk 1 0 0))) (Vector3.mk 0 0 0) = 1).
  { apply distanceTo_of; [ lra | ]. unfold distanceToSquared; simpl. lra. }
  assert (H : 0 < distanceTo (position (still (Vector3.mk 1 0 0))) (Vector3.mk 0 0 0)
              <= 140 / 3) by (rewrite Hd; lra).
  split; [ exact H | ].
  exact (proj1 (mouseRepel_saturates (Vector3.mk 0 0 0) (still (Vector3.mk 1 0 0))) H).
Defined.

(** X7 at a moving boid ten units from home, the pointer active at its
    home. *)
Lemma formed_speed_bound_witness :
  acceleration strayBoid = zero /\
  length (velocity (frameOf zero zero zero zero true false strayBoid))
    <= 4 * CONFIG.maxForce.
Proof.
  split; [ reflexivity | ].
  exact (proj1 (formed_speed_bound zero zero zero zero true strayBoid eq_refl)).
Defined.

(** X8 at the draws (1, 0.5, 0.5): a boid heading along the x axis. *)
Lemma constructor_speed_witness :
  ~ (1 = 0.5 /\ 0.5 = 0.5 /\ 0.5 = 0.5) /\
  length (velocity (constructor zero 1 0.5 0.5)) = CONFIG.maxSpeed * 0.5.
Proof.
  assert (H : ~ (1 = 0.5 /\ 0.5 = 0.5 /\ 0.5 = 0.5)) by (intros (E & _); lra).
  split; [ exact H | ].
  exact (proj1 (proj2 (proj2 (proj2 (proj2 (constructor_speed zero 1 0.5 0.5))))) H).
Defined.

(** X10 at a boid at rest at the origin seeking a point one unit away. *)
Lemma seek_spec_witness :
  velocity (still zero) = zero /\
  0 < distanceTo (Vector3.mk 1 0 0) (position (still zero)) /\
  length (eval (seek (Vector3.mk 1 0 0)) (still zero)) = CONFIG.maxForce.
Proof.
  assert (Hd : distanceTo (Vector3.mk 1 0 0) (position (still zero)) = 1).
  { apply distanceTo_of; [ lra | ]. unfold distanceToSquared; simpl. lra. }
  assert (H : 0 < distanceTo (Vector3.mk 1 0 0) (position (still zero)))
    by (rewrite Hd; lra).
  split; [ reflexivity | ]. split; [ exact H | ].
  exact (proj2 (proj1 (proj2 (proj2 (seek_spec (Vector3.mk 1 0 0) (still zero))))
                  eq_refl H)).
Defined.

(** X11 at a fresh material (intensity 0.1). *)
Lemma glow_stays_in_range_witness :
  0.1 <= 0.1 <= 0.8 /\
  0.1 <= updateGlow false strayBoid 0.1 <= 0.8.
Proof.
  assert (H : 0.1 <= 0.1 <= 0.8) by lra.
  split; [ exact H | ].
  exact (proj1 (glow_stays_in_range false strayBoid 0.1 H)).
Defined.

Lemma fair_zeros : fair zeros.
Proof. intros n. unfold zeros. lra. Defined.

Lemma litCount_topRowLit : litCount topRowLit = 200%nat.
Proof. vm_compute. reflexivity. Defined.

(** X12 at a list of two positions and the all-zero draws. *)
Lemma shuffle_permutes_witness :
  fair zeros /\
  Permutation (eval (shuffle [Vector3.mk 1 0 0; Vector3.mk 2 0 0]) zeros)
              [Vector3.mk 1 0 0; Vector3.mk 2 0 0].
Proof.
  split; [ exact fair_zeros | ].
  exact (proj1 (shuffle_permutes [Vector3.mk 1 0 0; Vector3.mk 2 0 0] zeros fair_zeros)).
Defined.

(** X13 at an image with 200 lit pixels, asked for 500 points. *)
Lemma generate_returns_numPoints_witness :
  fair zeros /\ (0 < litCount topRowLit)%nat /\
  exists l,
    eval (generateTextPositions topRowLit 500 500) zeros = Normal l /\
    List.length l = 500%nat.
Proof.
  assert (H : (0 < litCount topRowLit)%nat) by (rewrite litCount_topRowLit; lia).
  split; [ exact fair_zeros | ]. split; [ exact H | ].
  destruct (generate_returns_numPoints topRowLit 500 500 zeros fair_zeros H (le_n 500))
    as (l & Hev & Hlen & _).
  exists l. split; assumption.
Defined.

(** X14 at an image with no lit pixel, asked for 500 points. *)
Lemma generate_without_pixels_witness :
  litCount dark = 0%nat /\
  eval (generateTextPositions dark 500 (S 0)) zeros = Throw.
Proof.
  assert (H : litCount dark = 0%nat) by (vm_compute; reflexivity).
  split; [ exact H | ].
  apply (proj1 (generate_without_pixels dark 500 0 zeros) H). lia.
Defined.

(** X15 at an image with 200 lit pixels, asked for 100 points. *)
Lemma generate_inside_box_witness :
  fair zeros /\ (100 <= litCount topRowLit)%nat /\
  exists l,
    eval (generateTextPositions topRowLit 100 0) zeros = Normal l /\
    Forall (inBox CONFIG.boundarySize) l.
Proof.
  assert (H : (100 <= litCount topRowLit)%nat) by (rewrite litCount_topRowLit; lia).
  split; [ exact fair_zeros | ]. split; [ exact H | ].
  destruct (generate_inside_box topRowLit 100 0 zeros fair_zeros H)
    as (l & Hev & _ & _ & Hbox & _).
  exists l. split; assumption.
Defined.

(** X16 at a single text position at the origin, two frames on. *)
Lemma settled_forever_witness :
  Forall (fun h => inBox CONFIG.boundarySize (fst h)) [(zero, (1, 0.5, 0.5))] /\
  Forall settled (boids (run [(zero, true); (zero, false)] (init [(zero, (1, 0.5, 0.5))]))).
Proof.
  assert (H : Forall (fun h : Vector3 * (R * R * R) => inBox CONFIG.boundarySize (fst h))
                     [(zero, (1, 0.5, 0.5))]).
  { constructor; [ | constructor ].
    unfold inBox, CONFIG.boundarySize; simpl. repeat split; lra. }
  split; [ exact H | ].
  exact (settled_forever [(zero, (1, 0.5, 0.5))] [(zero, true); (zero, false)] H).
Defined.

End MoreWitnesses.

(** ** Two boids at rest: repulsion inside, attraction outside *)

Section PairAtRest.
Import Vector3 Boid.

Lemma multiplyScalar_one (v : Vector3) : multiplyScalar v 1 = v.
Proof. destruct v; unfold multiplyScalar; simpl. f_equal; ring. Qed.

Lemma divideScalar_one (v : Vector3) : divideScalar v 1 = v.
Proof.
  unfold divideScalar. replace (1 / 1) with 1 by field. apply multiplyScalar_one.
Qed.

Lemma divideScalar_zero (s : R) : divideScalar zero s = zero.
Proof. unfold divideScalar. apply multiplyScalar_zero. Qed.

Lemma normalize_scaled (w : Vector3) (k : R) :
  length w = 1 -> 0 < k -> normalize (multiplyScalar w k) = w.
Proof.
  intros Hw Hk. unfold normalize.
  assert (Hl : length (multiplyScalar w k) = k).
  { rewrite length_multiplyScalar, Hw, Rabs_right by lra. ring. }
  rewrite Hl, orOne_nonzero by lra.
  unfold divideScalar. rewrite multiplyScalar_assoc.
  replace (k * (1 / k)) with 1 by (field; lra). apply multiplyScalar_one.
Qed.

Lemma alignment_of_first (b0 b1 : Boid) :
  eval (alignment 0) [b0; b1] =
  let d := distanceTo (position b0) (position b1) in
  if Rgtb d 0 && Rltb d CONFIG.alignmentRadius then
    clampLength
      (subVectors
         (multiplyScalar
            (normalize (divideScalar (add zero (velocity b1)) (INR 1)))
            CONFIG.maxSpeed)
         (velocity b0))
      0 CONFIG.maxForce
  else zero.
Proof.
  unfold eval, alignment, bind, get.
  cbn [List.length seq forOf Nat.eqb bind getAt nth ret fst snd].
  unfold bind, getAt. cbn [nth fst snd].
  destruct (Rgtb _ 0 && Rltb _ _); reflexivity.
Qed.

Lemma cohesion_of_first (b0 b1 : Boid) :
  eval (cohesion 0) [b0; b1] =
  let d := distanceTo (position b0) (position b1) in
  if Rgtb d 0 && Rltb d CONFIG.cohesionRadius then
    eval (seek (divideScalar (add zero (position b1)) (INR 1))) b0
  else zero.
Proof.
  unfold eval, cohesion, bind, get.
  cbn [List.length seq forOf Nat.eqb bind getAt nth ret fst snd].
  unfold bind, getAt. cbn [nth fst snd].
  destruct (Rgtb _ 0 && Rltb _ _); [ | reflexivity ].
  reflexivity.
Qed.

Lemma pair_alignment_at_rest (b0 b1 : Boid) :
  velocity b0 = zero -> velocity b1 = zero ->
  eval (alignment 0) [b0; b1] = zero.
Proof.
  intros H0 H1. rewrite alignment_of_first. cbv zeta.
  destruct (Rgtb _ 0 && Rltb _ _); [ | reflexivity ].
  rewrite H0, H1, add_zero_l, divideScalar_zero, normalize_zero, multiplyScalar_zero.
  rewrite subVectors_self. apply clampLength_zero.
Qed.

Lemma pair_separation_at_rest (b0 b1 : Boid) :
  velocity b0 = zero ->
  0 < distanceTo (position b0) (position b1) < CONFIG.separationRadius ->
  eval (separation 0) [b0; b1] =
  multiplyScalar (normalize (subVectors (position b0) (position b1))) CONFIG.maxForce.
Proof.
  intros H0 Hd. rewrite separation_of_first. cbv zeta.
  rewrite (proj2 (Rgtb_true _ 0)) by lra.
  rewrite (proj2 (Rltb_true _ CONFIG.separationRadius)) by lra.
  cbn [andb].
  assert (Hw : length (normalize (subVectors (position b0) (position b1))) = 1).
  { apply length_normalize. rewrite length_subVectors. lra. }
  change (INR 1) with 1.
  rewrite add_zero_l, divideScalar_one.
  unfold divideScalar at 1.
  rewrite normalize_scaled;
    [ | exact Hw | apply Rdiv_lt_0_compat; lra ].
  rewrite H0, sub_zero_r.
  rewrite clampLength_scaled_unit;
    [ | exact Hw | unfold CONFIG.maxSpeed; lra | apply maxForce_nonneg ].
  unfold CONFIG.maxSpeed, CONFIG.maxForce. rewrite Rmin_right by lra. reflexivity.
Qed.

Lemma pair_cohesion_at_rest (b0 b1 : Boid) :
  velocity b0 = zero ->
  0 < distanceTo (position b0) (position b1) < CONFIG.cohesionRadius ->
  eval (cohesion 0) [b0; b1] =
  multiplyScalar (normalize (subVectors (position b1) (position b0))) CONFIG.maxForce.
Proof.
  intros H0 Hd. rewrite cohesion_of_first. cbv zeta.
  rewrite (proj2 (Rgtb_true _ 0)) by lra.
  rewrite (proj2 (Rltb_true _ CONFIG.cohesionRadius)) by lra.
  cbn [andb]. change (INR 1) with 1. rewrite add_zero_l, divideScalar_one.
  assert (Hu : length (normalize (subVectors (position b1) (position b0))) = 1).
  { apply length_normalize. rewrite length_subVectors, distanceTo_sym. lra. }
  unfold eval. rewrite seek_run. cbn [fst]. rewrite H0, subVectors_zero_r.
  rewrite clampLength_scaled_unit;
    [ | exact Hu | unfold CONFIG.maxSpeed; lra | apply maxForce_nonneg ].
  unfold CONFIG.maxSpeed, CONFIG.maxForce. rewrite Rmin_right by lra. reflexivity.
Qed.

Lemma scan_out_of_range (radius : R) (b0 b1 : Boid) :
  radius <= distanceTo (position b0) (position b1) \/
  distanceTo (position b0) (position b1) = 0 ->
  Rgtb (distanceTo (position b0) (position b1)) 0 &&
  Rltb (distanceTo (position b0) (position b1)) radius = false.
Proof.
  intros [H | H].
  - rewrite (proj2 (Rltb_false _ radius)) by exact H. apply andb_false_r.
  - rewrite (proj2 (Rgtb_false _ 0)) by lra. reflexivity.
Qed.

(** X17.  Two boids at rest, scattered, the pointer inactive and nothing
    pending; [u] is the unit vector from the first to the second and [d]
    their distance.  What [flock] leaves in the acceleration of the first:
    below [separationRadius] a push away from the other of 0.025 (the
    weighted separation 0.075 against the cohesion 0.05); from
    [separationRadius] up to [cohesionRadius] a pull towards it of 0.05;
    at [cohesionRadius] and beyond, or on the same spot, nothing. *)
Theorem pair_at_rest_forces (b0 b1 : Boid) (mp : Vector3) :
  velocity b0 = zero -> velocity b1 = zero -> acceleration b0 = zero ->
  let d := distanceTo (position b0) (position b1) in
  let u := normalize (subVectors (position b1) (position b0)) in
  let a := acceleration (nth 0 (exec (flock 0 mp false true) [b0; b1]) dummy) in
  (0 < d < CONFIG.separationRadius -> a = multiplyScalar u (-0.025)) /\
  (CONFIG.separationRadius <= d < CONFIG.cohesionRadius -> a = multiplyScalar u 0.05) /\
  (CONFIG.cohesionRadius <= d \/ d = 0 -> a = zero).
Proof.
  intros H0 H1 Ha. cbv zeta.
  assert (E : acceleration (nth 0 (exec (flock 0 mp false true) [b0; b1]) dummy) =
              add (add (add zero (sepOf 0 [b0; b1])) (aliOf 0 [b0; b1]))
                  (cohOf 0 [b0; b1])).
  { unfold exec at 1. rewrite flock_run. cbn [snd updAt nth].
    destruct (flockOnThis_scattered (sepOf 0 [b0; b1]) (aliOf 0 [b0; b1])
                (cohOf 0 [b0; b1]) mp false b0) as (_ & _ & _ & Hacc).
    cbv zeta in Hacc. rewrite Ha in Hacc. exact Hacc. }
  rewrite E. unfold sepOf, aliOf, cohOf.
  rewrite (pair_alignment_at_rest b0 b1 H0 H1).
  unfold CONFIG.separationRadius, CONFIG.cohesionRadius.
  split; [ | split ]; intros Hd.
  - rewrite pair_separation_at_rest
      by (unfold CONFIG.separationRadius; auto; lra).
    rewrite pair_cohesion_at_rest
      by (unfold CONFIG.cohesionRadius; auto; lra).
    rewrite (subVectors_swap (position b1) (position b0)), normalize_negate.
    destruct (normalize (subVectors (position b1) (position b0))) as [ux uy uz].
    unfold add, negate, multiplyScalar, zero, CONFIG.maxForce,
      CONFIG.separationWeight, CONFIG.alignmentWeight, CONFIG.cohesionWeight; simpl.
    f_equal; lra.
  - rewrite separation_of_first. cbv zeta.
    rewrite scan_out_of_range by (left; unfold CONFIG.separationRadius; lra).
    rewrite pair_cohesion_at_rest
      by (unfold CONFIG.cohesionRadius; auto; lra).
    destruct (normalize (subVectors (position b1) (position b0))) as [ux uy uz].
    unfold add, multiplyScalar, zero, CONFIG.maxForce,
      CONFIG.separationWeight, CONFIG.alignmentWeight, CONFIG.cohesionWeight; simpl.
    f_equal; lra.
  - rewrite separation_of_first, cohesion_of_first. cbv zeta.
    rewrite !scan_out_of_range;
      [ | unfold CONFIG.cohesionRadius; destruct Hd; [ left; lra | right; assumption ]
        | unfold CONFIG.separationRadius; destruct Hd; [ left; lra | right; assumption ] ].
    unfold add, multiplyScalar, zero; simpl. f_equal; lra.
Qed.

End PairAtRest.

Section PairWitness.
Import Vector3 Boid.

(** X17 at two boids at rest one unit apart: the first is pushed away. *)
Lemma pair_at_rest_forces_witness :
  0 < distanceTo (position (still (Vector3.mk 0 0 0))) (position (still (Vector3.mk 1 0 0)))
    < CONFIG.separationRadius /\
  acceleration (nth 0 (exec (flock 0 zero false true) pairSwarm) dummy) =
  multiplyScalar
    (normalize (subVectors (position (still (Vector3.mk 1 0 0)))
                           (position (still (Vector3.mk 0 0 0)))))
    (-0.025).
Proof.
  assert (H : 0 < distanceTo (position (still (Vector3.mk 0 0 0)))
                             (position (still (Vector3.mk 1 0 0)))
              < CONFIG.separationRadius).
  { cbn [still position]. rewrite pair_distance. unfold CONFIG.separationRadius. lra. }
  split; [ exact H | ].
  exact (proj1 (pair_at_rest_forces (still (Vector3.mk 0 0 0)) (still (Vector3.mk 1 0 0))
                  zero eq_refl eq_refl eq_refl) H).
Defined.

End PairWitness.
